(** * online-CamCalib: guided chessboard capture for camera calibration

    A shallow embedding of the decision logic of the repository:

    - [Utils.createTrigger]      (utils: the frame-rate gate),
    - [Camera]                   (src/models/camera.ts: guidance-gated capture),
    - [CalibCamera]              (the later camera model: throttled capture that
                                  stores every detection and calls the solver),
    - [Hook.captureWithGuidance] (the React hook's capture loop).

    JavaScript numbers are modelled as exact rationals [Q]: subtraction,
    [Math.abs], [Math.max] and the comparisons are the exact ones.  Rounding,
    NaN and the infinities are outside the model, except for the division
    [1000 / fps], whose value at [fps = 0] (Infinity) is kept apart.

    The vision library (corner detection, pose solving, the calibration
    solver) is external: what it returns on a tick is an input of the tick,
    and a call of the solver is an output event of the tick. *)

From Stdlib Require Import QArith Qabs Qminmax Lqa.
From Stdlib Require Import String Bool Arith Lia List Sorted.
Import ListNotations.

Local Open Scope Q_scope.

(** ** JavaScript number operations used by the code *)

(** [a < b] on numbers. *)
Definition Qltb (a b : Q) : bool := negb (Qle_bool b a).

(** [a >= b] on numbers. *)
Definition Qgeb (a b : Q) : bool := Qle_bool b a.

(** [x || d] on a number: 0 is falsy. *)
Definition num_or (x d : Q) : Q := if Qeq_bool x 0 then d else x.

(** [x || d] on an optional number: undefined and 0 are falsy. *)
Definition opt_num_or (x : option Q) (d : Q) : Q :=
  match x with
  | Some v => num_or v d
  | None => d
  end.

(** [x || d] on an optional count. *)
Definition opt_nat_or (x : option nat) (d : nat) : nat :=
  match x with
  | Some O => d
  | Some v => v
  | None => d
  end.

(** ** utils: the frame-rate gate *)

Module Utils.

(** [const interval = 1000 / fps]; [None] stands for Infinity, the value
    of the division at [fps = 0]. *)
Definition interval (fps : Q) : option Q :=
  if Qeq_bool fps 0 then None else Some (1000 / fps).

(** [d >= interval]. *)
Definition reaches (iv : option Q) (d : Q) : bool :=
  match iv with
  | Some i => Qgeb d i
  | None => false
  end.

(** The closure returned by [createTrigger]: its captured variables. *)
Record Trigger := mkTrigger {
  trig_interval : option Q;
  lastTime : Q
}.

(** [createTrigger(fps)]: [let lastTime = 0]. *)
Definition createTrigger (fps : Q) : Trigger :=
  mkTrigger (interval fps) 0.

(** One call of the closure, [now] being the value of [performance.now()]:
    the answer and the closure afterwards. *)
Definition call (t : Trigger) (now : Q) : bool * Trigger :=
  if reaches (trig_interval t) (now - lastTime t)
  then (true, mkTrigger (trig_interval t) now)
  else (false, t).

(** The answers of successive calls at the given clock values. *)
Fixpoint calls (t : Trigger) (nows : list Q) : list bool :=
  match nows with
  | [] => []
  | now :: rest => fst (call t now) :: calls (snd (call t now)) rest
  end.

End Utils.

(** ** src/models/camera.ts *)

Record Point := mkPoint {
  pitch : Q;
  yaw : Q;
  roll : Q;
  distance : Q
}.

Definition msgVertical : string := "请上下移动相机或棋盘格".
Definition msgHorizontal : string := "请左右移动相机或棋盘格".
Definition msgRotate : string := "请旋转棋盘格或相机".
Definition msgOk : string := "当前角度合适，继续采集!".

(** [const threshold = 10]. *)
Definition threshold : Q := 10.

(** The body of [for (const h of history)] in [getGuidance]: the three
    running maxima after one more history entry. *)
Definition maxDiffStep (newAngle : Point) (acc : Q * Q * Q) (h : Point)
  : Q * Q * Q :=
  let '(maxPitchDiff, maxYawDiff, maxRollDiff) := acc in
  (Qmax maxPitchDiff (Qabs (pitch newAngle - pitch h)),
   Qmax maxYawDiff (Qabs (yaw newAngle - yaw h)),
   Qmax maxRollDiff (Qabs (roll newAngle - roll h))).

(** The loop of [getGuidance], started at [0, 0, 0]. *)
Definition maxDiffs (newAngle : Point) (history : list Point) : Q * Q * Q :=
  fold_left (maxDiffStep newAngle) history (0, 0, 0).

(** [getGuidance(newAngle, history)]. *)
Definition getGuidance (newAngle : Point) (history : list Point) : string :=
  let '(maxPitchDiff, maxYawDiff, maxRollDiff) := maxDiffs newAngle history in
  if Qltb maxPitchDiff threshold then msgVertical
  else if Qltb maxYawDiff threshold then msgHorizontal
  else if Qltb maxRollDiff threshold then msgRotate
  else msgOk.

(** The test [tip === "当前角度合适，继续采集!"] made by the callers. *)
Definition accepts (tip : string) : bool := String.eqb tip msgOk.

(** The largest difference to the history on one axis, as the loop of
    [getGuidance] accumulates it from [m]. *)
Definition axisMax (axis : Point -> Q) (newAngle : Point)
  (history : list Point) (m : Q) : Q :=
  fold_left (fun m h => Qmax m (Qabs (axis newAngle - axis h))) history m.

(** The inner loop of [prepareObjectPoints], row [i], from column [j]. *)
Fixpoint objRow (squareSize : Q) (i : nat) (j n : nat) : list (list Q) :=
  match n with
  | O => []
  | S n' =>
      [inject_Z (Z.of_nat j) * squareSize;
       inject_Z (Z.of_nat i) * squareSize; 0]
      :: objRow squareSize i (S j) n'
  end.

(** The outer loop of [prepareObjectPoints], from row [i]. *)
Fixpoint objRows (squareSize : Q) (colNum : nat) (i n : nat)
  : list (list Q) :=
  match n with
  | O => []
  | S n' => objRow squareSize i 0 colNum ++ objRows squareSize colNum (S i) n'
  end.

(** [prepareObjectPoints()] for the given pattern. *)
Definition prepareObjectPoints (colNum rowNum : nat) (squareSize : Q)
  : list (list Q) :=
  objRows squareSize colNum 0 rowNum.

(** What the vision library reports for a frame in which the chessboard
    was found: the corner coordinates ([corners.data32F], flat) and the
    pose that [solvePnP] and [analyzePose] derive from them. *)
Record Detection := mkDetection {
  data32F : list Q;
  angles : Point
}.

(** The inputs of one call of [draw]: the video dimensions and what
    [findChessboardCorners] answers ([None]: not found). *)
Record Frame := mkFrame {
  videoWidth : nat;
  videoHeight : nat;
  found : option Detection
}.

Module Camera.

(** The fields of the class that [draw] and the setter read and write. *)
Record t := mk {
  colNum : nat;
  rowNum : nat;
  squareSize : Q;
  objp : list (list Q);
  anglesHist : list Point;
  objectPoints : list (list (list Q));
  imagePoints : list (list Q);
  captured : nat
}.

(** The field initialisers of the class. *)
Definition constructor : t :=
  mk 0 0 0 [] [] [] [] 0.

Record BlockConfig := mkBlockConfig {
  cfg_colNum : option nat;
  cfg_rowNum : option nat;
  cfg_squareSize : Q
}.

(** [set blockConfig(config)]. *)
Definition set_blockConfig (c : t) (config : BlockConfig) : t :=
  let colNum' := opt_nat_or (cfg_colNum config) (colNum c) in
  let rowNum' := opt_nat_or (cfg_rowNum config) (rowNum c) in
  let squareSize' := num_or (cfg_squareSize config) (squareSize c) in
  mk colNum' rowNum' squareSize'
     (prepareObjectPoints colNum' rowNum' squareSize')
     (anglesHist c) (objectPoints c) (imagePoints c) (captured c).

(** [draw()]: the camera afterwards and the tip computed on this call, if
    one was ([this.onGuidance?.(tip)]). *)
Definition draw (c : t) (f : Frame) : t * option string :=
  if (videoHeight f =? 0)%nat || (videoWidth f =? 0)%nat then (c, None)
  else
    match found f with
    | None => (c, None)
    | Some d =>
        let tip := getGuidance (angles d) (anglesHist c) in
        if accepts tip
        then (mk (colNum c) (rowNum c) (squareSize c) (objp c)
                 (anglesHist c ++ [angles d])
                 (objectPoints c ++ [objp c])
                 (imagePoints c ++ [data32F d])
                 (S (captured c)),
              Some tip)
        else (c, Some tip)
    end.

(** Successive calls of [draw], one per frame: the camera at the end and
    the tips in order. *)
Fixpoint draws (c : t) (fs : list Frame) : t * list (option string) :=
  match fs with
  | [] => (c, [])
  | f :: rest =>
      let '(c1, tip) := draw c f in
      let '(c2, tips) := draws c1 rest in
      (c2, tip :: tips)
  end.

(** What can happen to a camera between its construction and any later
    moment: the pattern is set, or a frame is drawn. *)
Inductive action :=
| SetBlockConfig (config : BlockConfig)
| Draw (f : Frame).

Definition step (c : t) (a : action) : t :=
  match a with
  | SetBlockConfig config => set_blockConfig c config
  | Draw f => fst (draw c f)
  end.

Inductive reachable : t -> Prop :=
| reach_constructor : reachable constructor
| reach_step c a : reachable c -> reachable (step c a).

(** Whether the novelty evaluation of a call of [draw] accepted the pose:
    the evaluation runs only when the video has a size and the board was
    found. *)
Definition accepted (c : t) (f : Frame) : bool :=
  match snd (draw c f) with
  | Some tip => accepts tip
  | None => false
  end.

(** The number of accepting evaluations along successive calls of [draw]. *)
Fixpoint acceptedCount (c : t) (fs : list Frame) : nat :=
  match fs with
  | [] => 0
  | f :: rest =>
      (if accepted c f then 1 else 0) + acceptedCount (fst (draw c f)) rest
  end.

End Camera.

(** ** The capture hook: [useCalibrationWithGuidance] *)

Module Hook.

Definition msgDone : string := "采集完成，开始标定！".

(** The [useState] defaults of the hook. *)
Definition colNum : nat := 6.
Definition rowNum : nat := 6.
Definition squareSize : Q := 1.

(** The variables of [captureWithGuidance] and the React state it sets. *)
Record t := mk {
  objectPoints : list (list (list Q));
  imagePoints : list (list Q);
  anglesHist : list Point;
  captured : nat;
  guidance : option string;
  anglesHistory : list Point
}.

(** The state on entry of the [for] loop. *)
Definition start : t := mk [] [] [] 0 None [].

(** One turn of the [for] loop.  [frame] is what [capture()] returns
    ([None]: null, the turn is skipped by [continue]); inside, what the
    corner search answers. *)
Definition turn (objp : list (list Q)) (s : t)
  (frame : option (option Detection)) : t :=
  match frame with
  | None => s
  | Some None => s
  | Some (Some d) =>
      let tip := getGuidance (angles d) (anglesHist s) in
      if accepts tip
      then mk (objectPoints s ++ [objp])
              (imagePoints s ++ [data32F d])
              (anglesHist s ++ [angles d])
              (S (captured s))
              (Some tip)
              (anglesHist s ++ [angles d])
      else mk (objectPoints s) (imagePoints s) (anglesHist s) (captured s)
              (Some tip) (anglesHistory s)
  end.

(** What follows the loop: [setGuidance("采集完成，开始标定！")]. *)
Definition finish (s : t) : t :=
  mk (objectPoints s) (imagePoints s) (anglesHist s) (captured s)
     (Some msgDone) (anglesHistory s).

(** The [for (let captured = 0; captured < numImages;)] loop, cut after
    [fuel] turns: [Some] the state after the loop when it was left within
    these turns, [None] when it is still running.  [capture k] is what
    the [k]-th call of [capture()] meets. *)
Fixpoint loop (fuel : nat) (numImages : nat) (objp : list (list Q))
  (capture : nat -> option (option Detection)) (k : nat) (s : t)
  : option t :=
  if (captured s <? numImages)%nat
  then
    match fuel with
    | O => None
    | S fuel' =>
        loop fuel' numImages objp capture (S k) (turn objp s (capture k))
    end
  else Some (finish s).

(** [captureWithGuidance(numImages)], cut after [fuel] turns of its loop. *)
Definition captureWithGuidance (fuel : nat) (numImages : nat)
  (capture : nat -> option (option Detection)) : option t :=
  loop fuel numImages (prepareObjectPoints colNum rowNum squareSize)
       capture 0 start.

End Hook.

(** ** The later camera model: throttled capture and calibration *)

Module CalibCamera.

(** A matrix of the vision library, as far as the code fills it. *)
Record Mat := mkMat {
  rows : nat;
  cols : nat;
  data : list Q
}.

(** [cv.matFromArray(rows, cols, type, array)]. *)
Definition matFromArray (rows cols : nat) (array : list Q) : Mat :=
  mkMat rows cols array.

(** [gray.size()]: width and height. *)
Definition Size : Type := (nat * nat)%type.

Record CameraConfig := mkCameraConfig {
  cfg_fps : option Q
}.

Record BlockConfig := mkBlockConfig {
  cfg_colNum : option nat;
  cfg_rowNum : option nat;
  cfg_squareSize : Q
}.

Record t := mk {
  colNum : nat;
  rowNum : nat;
  squareSize : Q;
  anglesHist : list Point;
  fps : Q;
  trigger : Utils.Trigger;
  prevGray : option Size;
  prevCorners : option (list Q);
  objMat : option Mat;
  objpointsMat : list Mat;
  imgpointsMat : list Mat
}.

(** [constructor(config)]: [this.fps = config.fps || 10;
    this.trigger = createTrigger(this.fps)]. *)
Definition constructor (config : CameraConfig) : t :=
  let fps := opt_num_or (cfg_fps config) 10 in
  mk 10 7 1 [] fps (Utils.createTrigger fps) None None None [] [].

(** [set blockConfig(config)]. *)
Definition set_blockConfig (c : t) (config : BlockConfig) : t :=
  let colNum' := opt_nat_or (cfg_colNum config) (colNum c) in
  let rowNum' := opt_nat_or (cfg_rowNum config) (rowNum c) in
  let squareSize' := num_or (cfg_squareSize config) (squareSize c) in
  mk colNum' rowNum' squareSize' (anglesHist c) (fps c) (trigger c)
     (prevGray c) (prevCorners c)
     (Some (matFromArray (colNum' * rowNum') 3
              (List.concat (prepareObjectPoints colNum' rowNum' squareSize'))))
     (objpointsMat c) (imgpointsMat c).

(** The inputs of one call of [draw]: the video dimensions, the value of
    [performance.now()], and the corners found ([None]: not found). *)
Record Tick := mkTick {
  videoWidth : nat;
  videoHeight : nat;
  now : Q;
  corners : option (list Q)
}.

(** A call of the external solver made by [calibrateCamera(imageSize)]:
    [calibrateCameraExtended(this.objpointsMat, this.imgpointsMat,
    imageSize, ...)]. *)
Inductive Event :=
| Calibrate (objpoints imgpoints : list Mat) (imageSize : Size).

(** How a call of [draw] ends: it returns, having made these calls of
    the solver, or [this.objMat!.clone()] throws on a null [objMat]. *)
Inductive Outcome :=
| Returned (events : list Event)
| TypeError.

(** [draw()]. *)
Definition draw (c : t) (k : Tick) : t * Outcome :=
  if (videoHeight k =? 0)%nat || (videoWidth k =? 0)%nat
  then (c, Returned [])
  else
    let '(fire, trigger') := Utils.call (trigger c) (now k) in
    if negb fire then (c, Returned [])
    else
      match corners k with
      | None =>
          (mk (colNum c) (rowNum c) (squareSize c) (anglesHist c) (fps c)
              trigger' None None (objMat c)
              (objpointsMat c) (imgpointsMat c),
           Returned [])
      | Some cs =>
          let gray : Size := (videoWidth k, videoHeight k) in
          match objMat c with
          | None =>
              (mk (colNum c) (rowNum c) (squareSize c) (anglesHist c) (fps c)
                  trigger' (Some gray) (Some cs) None
                  (objpointsMat c) (imgpointsMat c),
               TypeError)
          | Some om =>
              let objpoints := objpointsMat c ++ [om] in
              let imgMat := matFromArray (colNum c * rowNum c) 2 cs in
              let imgpoints := imgpointsMat c ++ [imgMat] in
              (mk (colNum c) (rowNum c) (squareSize c) (anglesHist c) (fps c)
                  trigger' (Some gray) (Some cs) (Some om)
                  objpoints imgpoints,
               if (15 <=? List.length objpoints)%nat
               then Returned [Calibrate objpoints imgpoints gray]
               else Returned [])
          end
      end.

(** Whether a call of [draw] stores a sample: it reaches the two
    [push_back]s. *)
Definition stores (c : t) (k : Tick) : bool :=
  (List.length (objpointsMat c) <? List.length (objpointsMat (fst (draw c k))))%nat.

End CalibCamera.

(** ** The end-to-end scenario *)

Module Scenario.

(** The four poses fed to the session. *)
Definition poses : list Point :=
  [mkPoint 0 0 0 1; mkPoint 15 0 0 1; mkPoint 15 15 0 1; mkPoint 15 15 15 1].

(** A frame of a running video in which the 6x6 board is found (36 corners,
    72 coordinates) in the given pose. *)
Definition frameOf (p : Point) : Frame :=
  mkFrame 640 480 (Some (mkDetection (repeat 0 72) p)).

(** A fresh camera with the 6x6 pattern of unit squares. *)
Definition camera : Camera.t :=
  Camera.set_blockConfig Camera.constructor
    (Camera.mkBlockConfig (Some 6%nat) (Some 6%nat) 1).

(** The same camera with the pose [(0,0,0,1)] already in its history. *)
Definition seeded : Camera.t :=
  Camera.mk (Camera.colNum camera) (Camera.rowNum camera)
    (Camera.squareSize camera) (Camera.objp camera)
    [mkPoint 0 0 0 1] (Camera.objectPoints camera)
    (Camera.imagePoints camera) (Camera.captured camera).

(** The tips of the session, one per frame. *)
Definition guidanceSeq (c : Camera.t) : list (option string) :=
  snd (Camera.draws c (map frameOf poses)).

(** Which of the frames were accepted. *)
Definition acceptSeq (c : Camera.t) : list bool :=
  map (fun tip => match tip with Some t => accepts t | None => false end)
      (guidanceSeq c).

End Scenario.

(** ** The novelty evaluation, axis by axis *)

(** Whether the loop of [getGuidance] ends with a maximum that is not
    below the threshold on the given axis. *)
Definition axisFar (axis : Point -> Q) (newAngle : Point)
  (history : list Point) : bool :=
  negb (Qltb (axisMax axis newAngle history 0) threshold).

(** The three angles of a pose, the distance left out. *)
Definition anglesOf (p : Point) : Q * Q * Q := (pitch p, yaw p, roll p).

(** ** The intermediate camera model: the gate written inside [draw] *)

Module ThrottledCamera.

(** The fields that [draw] reads and writes; the capture part of this
    [draw] is commented out, so nothing else changes. *)
Record t := mk {
  fps : Q;
  lastDrawTime : Q
}.

(** [constructor(config)]: [this.fps = config.fps || 10], the field
    initialiser [lastDrawTime = 0]. *)
Definition constructor (config_fps : Q) : t :=
  mk (num_or config_fps 10) 0.

(** [d < 1000 / fps]; at [fps = 0] the quotient is Infinity. *)
Definition belowInterval (fps d : Q) : bool :=
  if Qeq_bool fps 0 then true else Qltb d (1000 / fps).

(** [draw()], as far as the frame processing is reached: the camera
    afterwards and whether the call went past the two early returns. *)
Definition draw (c : t) (videoWidth videoHeight : nat) (now : Q) : t * bool :=
  if (videoHeight =? 0)%nat || (videoWidth =? 0)%nat then (c, false)
  else if belowInterval (fps c) (now - lastDrawTime c) then (c, false)
  else (mk (fps c) now, true).

(** For successive calls of [draw], one per tick: whether each of them
    went past the early returns. *)
Fixpoint passes (c : t) (ks : list CalibCamera.Tick) : list bool :=
  match ks with
  | [] => []
  | k :: rest =>
      let r := draw c (CalibCamera.videoWidth k) (CalibCamera.videoHeight k)
                 (CalibCamera.now k) in
      snd r :: passes (fst r) rest
  end.

End ThrottledCamera.

(** ** Sessions of the later camera model *)

Module CalibSession.

(** The default of [init]: [{ squareSize: 1, colNum: 10, rowNum: 7 }]. *)
Definition defaultBlockConfig : CalibCamera.BlockConfig :=
  CalibCamera.mkBlockConfig (Some 10%nat) (Some 7%nat) 1.

(** [init(blockConfig?)], as far as the camera's own fields go:
    [this.blockConfig = blockConfig || {...}]. *)
Definition init (c : CalibCamera.t)
  (blockConfig : option CalibCamera.BlockConfig) : CalibCamera.t :=
  CalibCamera.set_blockConfig c
    (match blockConfig with
     | Some b => b
     | None => defaultBlockConfig
     end).

Inductive action :=
| Init (blockConfig : option CalibCamera.BlockConfig)
| SetBlockConfig (config : CalibCamera.BlockConfig)
| Draw (k : CalibCamera.Tick).

Definition step (c : CalibCamera.t) (a : action) : CalibCamera.t :=
  match a with
  | Init b => init c b
  | SetBlockConfig config => CalibCamera.set_blockConfig c config
  | Draw k => fst (CalibCamera.draw c k)
  end.

(** The cameras met after construction and any calls of [init], the
    pattern setter and [draw]. *)
Inductive reachable : CalibCamera.t -> Prop :=
| reach_constructor config : reachable (CalibCamera.constructor config)
| reach_step c a : reachable c -> reachable (step c a).

(** The cameras met once [init] has run, as in the application, which
    starts its [draw] loop when [init] is done. *)
Inductive initialised : CalibCamera.t -> Prop :=
| init_done c b : reachable c -> initialised (init c b)
| init_step c a : initialised c -> initialised (step c a).

(** For successive calls of [draw], one per tick: whether each of them
    stored a sample. *)
Fixpoint stored (c : CalibCamera.t) (ks : list CalibCamera.Tick)
  : list bool :=
  match ks with
  | [] => []
  | k :: rest =>
      CalibCamera.stores c k :: stored (fst (CalibCamera.draw c k)) rest
  end.

(** Whether a call of [draw] goes past its two early returns: the video
    has a size and the gate answers true. *)
Definition gatePass (c : CalibCamera.t) (k : CalibCamera.Tick) : bool :=
  negb ((CalibCamera.videoHeight k =? 0)%nat
        || (CalibCamera.videoWidth k =? 0)%nat)
  && fst (Utils.call (CalibCamera.trigger c) (CalibCamera.now k)).

(** For successive calls of [draw], one per tick: whether each of them
    went past the early returns. *)
Fixpoint passes (c : CalibCamera.t) (ks : list CalibCamera.Tick)
  : list bool :=
  match ks with
  | [] => []
  | k :: rest => gatePass c k :: passes (fst (CalibCamera.draw c k)) rest
  end.

(** The camera after successive calls of [draw]. *)
Definition run (c : CalibCamera.t) (ks : list CalibCamera.Tick)
  : CalibCamera.t :=
  fold_left (fun c k => fst (CalibCamera.draw c k)) ks c.

(** What a call of the solver is given, when well formed: at least 15
    object-point sets and as many image-point sets. *)
Definition wellFed (e : CalibCamera.Event) : Prop :=
  match e with
  | CalibCamera.Calibrate objpoints imgpoints _ =>
      (15 <= length objpoints)%nat /\ length objpoints = length imgpoints
  end.

(** A stored pair of matrices that belongs together: the same number of
    rows, three columns of object coordinates, all filled, and two
    columns of image coordinates. *)
Definition aligned (om im : CalibCamera.Mat) : Prop :=
  CalibCamera.rows om = CalibCamera.rows im /\
  CalibCamera.cols om = 3%nat /\ CalibCamera.cols im = 2%nat /\
  length (CalibCamera.data om) = (CalibCamera.rows om * 3)%nat.

End CalibSession.

(** ** Optical-flow tracking error *)

Module OpticalFlow.

(** The values the error sum can take: an integer, Infinity, or NaN. *)
Inductive num :=
| Fin (z : Z)
| Infinity
| NaN.

(** [a + b] on these values. *)
Definition add (a b : num) : num :=
  match a, b with
  | NaN, _ | _, NaN => NaN
  | Infinity, _ | _, Infinity => Infinity
  | Fin x, Fin y => Fin (x + y)
  end.

(** [err.data[i]]: the [i]-th byte of the byte view of the error matrix
    (a matrix of 32-bit floats, so four bytes for each point), undefined
    past its end. *)
Definition read (data : list nat) (i : nat) : num :=
  match nth_error data i with
  | Some v => Fin (Z.of_nat v)
  | None => NaN
  end.

(** The loop [for (let i = 0; i < status.rows; i++)] of
    [calcOpticalFlow], from index [i] over the remaining status bytes:
    [error += err.data[i]] for a tracked point ([status.data[i] === 1]),
    [error += Infinity] for a lost one. *)
Fixpoint sumErrors (status : list nat) (err : list nat) (i : nat)
  (error : num) : num :=
  match status with
  | [] => error
  | s :: rest =>
      sumErrors rest err (S i)
        (if (s =? 1)%nat then add error (read err i) else add error Infinity)
  end.

(** The [error] that [calcOpticalFlow] returns: [let error = 0], then the
    loop.  [status] is [status.data], one byte for each point; [err] is
    [err.data], the byte view of the error matrix. *)
Definition trackingError (status : list nat) (err : list nat) : num :=
  sumErrors status err 0 (Fin 0).

End OpticalFlow.

(** ** Device selection *)

Module Devices.

Definition msgNoDevice : string := "未找到摄像头设备".
Definition msgNoAccess : string := "无法获取摄像头设备".

Record MediaDeviceInfo := mkDevice {
  kind : string;
  deviceId : string
}.

(** The device fields of the camera class. *)
Record t := mk {
  devices : list MediaDeviceInfo;
  selectedDeviceId : string
}.

(** The constructor's [this.devices = []; this.selectedDeviceId = ""]. *)
Definition constructor : t := mk [] "".

(** [d.kind === "videoinput"]. *)
Definition isVideoInput (d : MediaDeviceInfo) : bool :=
  String.eqb (kind d) "videoinput".

(** [getDevicesWithPermission()].  [granted] tells whether the first
    [getUserMedia] resolves; [enumerated] is what [enumerateDevices]
    resolves to ([None]: it rejects).  The result is the fields afterwards
    and the messages handed to [onError]. *)
Definition getDevicesWithPermission (c : t) (granted : bool)
  (enumerated : option (list MediaDeviceInfo)) : t * list string :=
  if granted
  then
    match enumerated with
    | Some all =>
        let videoDevices := filter isVideoInput all in
        match videoDevices with
        | d :: _ => (mk videoDevices (deviceId d), [])
        | [] => (mk videoDevices (selectedDeviceId c), [msgNoDevice])
        end
    | None => (c, [msgNoAccess])
    end
  else (c, [msgNoAccess]).

End Devices.

(** * Properties *)

(** ** Numbers *)

Lemma Qltb_lt (a b : Q) : Qltb a b = true <-> a < b.
Proof.
  unfold Qltb. rewrite negb_true_iff.
  split; intro H.
  - apply Qnot_le_lt. intro Hle. apply Qle_bool_iff in Hle. congruence.
  - destruct (Qle_bool b a) eqn:E; trivial.
    apply Qle_bool_iff in E. exfalso. exact (Qlt_not_le _ _ H E).
Qed.

Lemma Qltb_ge (a b : Q) : Qltb a b = false <-> b <= a.
Proof.
  unfold Qltb. rewrite negb_false_iff. apply Qle_bool_iff.
Qed.

(** ** The novelty evaluation *)

Lemma maxDiffs_axes (p : Point) (H : list Point) (a b c : Q) :
  fold_left (maxDiffStep p) H (a, b, c)
  = (axisMax pitch p H a, axisMax yaw p H b, axisMax roll p H c).
Proof.
  revert a b c. induction H as [|h H IH]; intros a b c.
  - reflexivity.
  - simpl. rewrite IH. reflexivity.
Qed.

Lemma axisMax_reaches (axis : Point -> Q) (p : Point) (H : list Point)
  (m t : Q) :
  t <= axisMax axis p H m <->
  t <= m \/ exists h, In h H /\ t <= Qabs (axis p - axis h).
Proof.
  revert m. induction H as [|h H IH]; intro m; simpl.
  - split; [intro; now left | intros [Hm | [h [[] _]]]; exact Hm].
  - unfold axisMax in *. simpl. rewrite IH, Q.max_le_iff. split.
    + intros [[Hm | Hh] | [h' [Hin Hle]]].
      * now left.
      * right. exists h. split; [now left | exact Hh].
      * right. exists h'. split; [now right | exact Hle].
    + intros [Hm | [h' [[Heq | Hin] Hle]]].
      * left. now left.
      * subst h'. left. now right.
      * right. exists h'. now split.
Qed.

Lemma getGuidance_cases (p : Point) (H : list Point) :
  getGuidance p H = msgVertical \/ getGuidance p H = msgHorizontal \/
  getGuidance p H = msgRotate \/ getGuidance p H = msgOk.
Proof.
  unfold getGuidance. destruct (maxDiffs p H) as [[a b] c].
  destruct (Qltb a threshold); [now left|].
  destruct (Qltb b threshold); [right; now left|].
  destruct (Qltb c threshold); [right; right; now left|].
  right; right; now right.
Qed.

(** [getGuidance] answers the accept message exactly when none of the
    three maxima is below the threshold. *)
Lemma getGuidance_ok_iff (p : Point) (H : list Point) :
  getGuidance p H = msgOk <->
  threshold <= axisMax pitch p H 0 /\ threshold <= axisMax yaw p H 0 /\
  threshold <= axisMax roll p H 0.
Proof.
  unfold getGuidance, maxDiffs. rewrite maxDiffs_axes.
  destruct (Qltb (axisMax pitch p H 0) threshold) eqn:Ep;
  destruct (Qltb (axisMax yaw p H 0) threshold) eqn:Ey;
  destruct (Qltb (axisMax roll p H 0) threshold) eqn:Er;
  try apply Qltb_lt in Ep; try apply Qltb_lt in Ey; try apply Qltb_lt in Er;
  try apply Qltb_ge in Ep; try apply Qltb_ge in Ey; try apply Qltb_ge in Er;
  (split; [intro Hm; try discriminate Hm | intros (Hp & Hy & Hr)]);
  try (exfalso; eapply Qlt_not_le; eassumption);
  try reflexivity; try (repeat split; assumption).
Qed.

Lemma accepts_iff (tip : string) : accepts tip = true <-> tip = msgOk.
Proof. unfold accepts. apply String.eqb_eq. Qed.

Lemma getGuidance_nil (p : Point) : getGuidance p [] = msgVertical.
Proof. reflexivity. Qed.

(** C9: against an empty history every pose is refused with the pitch
    message (move camera or board vertically): the three maxima stay at
    their initial 0, which is below the threshold 10. *)
Theorem empty_history_gives_vertical (P : Point) :
  maxDiffs P [] = (0, 0, 0) /\ 0 < threshold /\
  getGuidance P [] = msgVertical /\ accepts (getGuidance P []) = false.
Proof.
  repeat split.
Qed.

(** C3, as stated, fails: the pose (15,15,15) is accepted against the
    history [(0,0,0); (15,15,15)] although it coincides with the second
    entry. *)
Lemma accepted_pose_may_equal_history_entry :
  ~ (forall (H : list Point) (P : Point),
       accepts (getGuidance P H) = true ->
       forall h, In h H ->
         10 <= Qabs (pitch P - pitch h) /\ 10 <= Qabs (yaw P - yaw h) /\
         10 <= Qabs (roll P - roll h)).
Proof.
  intro claim.
  destruct (claim [mkPoint 0 0 0 1; mkPoint 15 15 15 1] (mkPoint 15 15 15 1)
              eq_refl (mkPoint 15 15 15 1)) as [Hp _].
  - right. now left.
  - vm_compute in Hp. apply Hp. reflexivity.
Qed.

(** C3, amended: an accepted pose differs, on each of the three axes, by
    at least 10 from some entry of the history (not necessarily the same
    entry for the three axes); in particular the history is not empty. *)
Theorem accepted_pose_far_from_some_entry (H : list Point) (P : Point) :
  accepts (getGuidance P H) = true ->
  (exists h, In h H /\ 10 <= Qabs (pitch P - pitch h)) /\
  (exists h, In h H /\ 10 <= Qabs (yaw P - yaw h)) /\
  (exists h, In h H /\ 10 <= Qabs (roll P - roll h)).
Proof.
  intro Hacc. apply accepts_iff, getGuidance_ok_iff in Hacc.
  destruct Hacc as (Hp & Hy & Hr).
  apply axisMax_reaches in Hp, Hy, Hr.
  assert (Hn : ~ threshold <= 0) by (intro Hle; vm_compute in Hle; now apply Hle).
  repeat split.
  - destruct Hp as [Hp | Hp]; [now elim Hn | exact Hp].
  - destruct Hy as [Hy | Hy]; [now elim Hn | exact Hy].
  - destruct Hr as [Hr | Hr]; [now elim Hn | exact Hr].
Qed.

Lemma accepted_pose_far_from_some_entry_witness :
  accepts (getGuidance (mkPoint 15 15 15 1) [mkPoint 0 0 0 1]) = true /\
  ((exists h, In h [mkPoint 0 0 0 1] /\ 10 <= Qabs (15 - pitch h)) /\
   (exists h, In h [mkPoint 0 0 0 1] /\ 10 <= Qabs (15 - yaw h)) /\
   (exists h, In h [mkPoint 0 0 0 1] /\ 10 <= Qabs (15 - roll h))).
Proof.
  split.
  - reflexivity.
  - apply (accepted_pose_far_from_some_entry
             [mkPoint 0 0 0 1] (mkPoint 15 15 15 1)).
    reflexivity.
Defined.

(** C1, as stated, fails: from an empty history the four poses do not
    yield the acceptances [false, false, false, true] with the tips
    vertical, horizontal, rotate, ok. *)
Lemma scenario_sequences_differ :
  ~ (Scenario.acceptSeq Scenario.camera = [false; false; false; true] /\
     Scenario.guidanceSeq Scenario.camera
     = [Some msgVertical; Some msgHorizontal; Some msgRotate; Some msgOk]).
Proof.
  intros [Hacc _]. vm_compute in Hacc. discriminate Hacc.
Qed.

(** C1, amended: from an empty history the four poses are all refused
    with the vertical tip, and the history is still empty afterwards; the
    acceptances [false, false, false, true] with the tips vertical,
    horizontal, rotate, ok are what the same poses yield against a history
    that already holds the pose (0,0,0,1). *)
Theorem scenario_sequences :
  Scenario.acceptSeq Scenario.camera = [false; false; false; false] /\
  Scenario.guidanceSeq Scenario.camera
  = [Some msgVertical; Some msgVertical; Some msgVertical; Some msgVertical] /\
  Camera.anglesHist (fst (Camera.draws Scenario.camera
                            (map Scenario.frameOf Scenario.poses))) = [] /\
  Scenario.acceptSeq Scenario.seeded = [false; false; false; true] /\
  Scenario.guidanceSeq Scenario.seeded
  = [Some msgVertical; Some msgHorizontal; Some msgRotate; Some msgOk].
Proof.
  repeat split; vm_compute; reflexivity.
Qed.

(** ** Sessions of the guidance-gated camera *)

Lemma draw_refused (c : Camera.t) (f : Frame) :
  Camera.accepted c f = false -> fst (Camera.draw c f) = c.
Proof.
  unfold Camera.accepted, Camera.draw.
  destruct ((videoHeight f =? 0)%nat || (videoWidth f =? 0)%nat);
    [reflexivity|].
  destruct (found f) as [d|]; [|reflexivity].
  destruct (accepts (getGuidance (angles d) (Camera.anglesHist c))) eqn:E;
    simpl; rewrite ?E; [discriminate | reflexivity].
Qed.

Lemma draw_accepted (c : Camera.t) (f : Frame) :
  Camera.accepted c f = true ->
  exists d, found f = Some d /\
    fst (Camera.draw c f)
    = Camera.mk (Camera.colNum c) (Camera.rowNum c) (Camera.squareSize c)
        (Camera.objp c)
        (Camera.anglesHist c ++ [angles d])
        (Camera.objectPoints c ++ [Camera.objp c])
        (Camera.imagePoints c ++ [data32F d])
        (S (Camera.captured c)).
Proof.
  unfold Camera.accepted, Camera.draw.
  destruct ((videoHeight f =? 0)%nat || (videoWidth f =? 0)%nat);
    [discriminate|].
  destruct (found f) as [d|]; [|discriminate].
  destruct (accepts (getGuidance (angles d) (Camera.anglesHist c))) eqn:E;
    simpl; rewrite ?E; [|discriminate].
  intros _. exists d. split; reflexivity.
Qed.

Lemma draws_fst (c : Camera.t) (f : Frame) (fs : list Frame) :
  fst (Camera.draws c (f :: fs)) = fst (Camera.draws (fst (Camera.draw c f)) fs).
Proof.
  simpl. destruct (Camera.draw c f) as [c1 tip]. simpl.
  destruct (Camera.draws c1 fs) as [c2 tips]. reflexivity.
Qed.

(** With an empty history no frame is accepted. *)
Lemma empty_history_refuses (c : Camera.t) (f : Frame) :
  Camera.anglesHist c = [] -> Camera.accepted c f = false.
Proof.
  intro Hc. unfold Camera.accepted, Camera.draw.
  destruct ((videoHeight f =? 0)%nat || (videoWidth f =? 0)%nat);
    [reflexivity|].
  destruct (found f) as [d|]; [|reflexivity].
  rewrite Hc, getGuidance_nil. reflexivity.
Qed.

(** The invariant of a session that starts from the constructor. *)
Lemma reachable_empty (c : Camera.t) :
  Camera.reachable c ->
  Camera.anglesHist c = [] /\ Camera.captured c = 0%nat /\
  Camera.objectPoints c = [] /\ Camera.imagePoints c = [].
Proof.
  induction 1 as [|c a Hc (Ha & Hn & Ho & Hi)].
  - repeat split.
  - destruct a as [config | f]; simpl.
    + repeat split; assumption.
    + rewrite (draw_refused c f (empty_history_refuses c f Ha)).
      repeat split; assumption.
Qed.

Lemma hook_turn_empty (objp : list (list Q)) (s : Hook.t)
  (frame : option (option Detection)) :
  Hook.anglesHist s = [] -> Hook.captured s = 0%nat ->
  Hook.anglesHist (Hook.turn objp s frame) = [] /\
  Hook.captured (Hook.turn objp s frame) = 0%nat.
Proof.
  intros Ha Hn. destruct frame as [[d|]|]; try (split; assumption).
  unfold Hook.turn. rewrite Ha, getGuidance_nil.
  change (accepts msgVertical) with false. split; simpl; [reflexivity | assumption].
Qed.

Lemma hook_loop_stuck (fuel n : nat) (objp : list (list Q))
  (capture : nat -> option (option Detection)) (k : nat) (s : Hook.t) :
  (1 <= n)%nat -> Hook.anglesHist s = [] -> Hook.captured s = 0%nat ->
  Hook.loop fuel n objp capture k s = None.
Proof.
  intro Hn. revert k s. induction fuel as [|fuel IH]; intros k s Ha Hc; simpl.
  - rewrite Hc. destruct (Nat.ltb_spec 0 n); [reflexivity | lia].
  - rewrite Hc. destruct (Nat.ltb_spec 0 n); [|lia].
    destruct (hook_turn_empty objp s (capture k) Ha Hc) as [Ha' Hc'].
    apply IH; assumption.
Qed.

(** The loop of the hook does end when no image is asked for, and from a
    history that holds (0,0,0,1) it ends after one turn that meets the
    pose (15,15,15,1). *)
Example hook_loop_ends :
  Hook.captureWithGuidance 0 0 (fun _ => None) = Some (Hook.finish Hook.start) /\
  option_map Hook.captured
    (Hook.loop 1 1 []
       (fun _ => Some (Some (mkDetection [] (mkPoint 15 15 15 1))))
       0 (Hook.mk [] [] [mkPoint 0 0 0 1] 0 None []))
  = Some 1%nat.
Proof. split; reflexivity. Qed.

(** C2: a session that starts with an empty history never accepts: the
    guidance against the empty history is never the accept message, every
    state the camera reaches from its constructor has an empty history and
    a captured count of 0, and the capture loop of the hook, asked for
    n >= 1 images, is still running after any number of turns. *)
Theorem empty_history_never_accepts
  (c : Camera.t) (n fuel : nat) (capture : nat -> option (option Detection))
  (Hc : Camera.reachable c) (Hn : (1 <= n)%nat) :
  (forall P, getGuidance P [] <> msgOk /\ accepts (getGuidance P []) = false) /\
  (Camera.anglesHist c = [] /\ Camera.captured c = 0%nat /\
   forall f, Camera.accepted c f = false) /\
  Hook.captureWithGuidance fuel n capture = None.
Proof.
  split; [|split].
  - intro P. rewrite getGuidance_nil. split; [discriminate | reflexivity].
  - destruct (reachable_empty c Hc) as (Ha & Hk & _).
    repeat split; try assumption.
    intro f. apply empty_history_refuses. exact Ha.
  - apply hook_loop_stuck; [exact Hn | reflexivity | reflexivity].
Qed.

Lemma empty_history_never_accepts_witness :
  Hook.captureWithGuidance 50 15
    (fun _ => Some (Some (mkDetection (repeat 0 72) (mkPoint 15 15 15 1))))
  = None /\
  Camera.captured
    (Camera.step (Camera.step Camera.constructor
                    (Camera.SetBlockConfig
                       (Camera.mkBlockConfig (Some 6%nat) (Some 6%nat) 1)))
                 (Camera.Draw (Scenario.frameOf (mkPoint 15 15 15 1))))
  = 0%nat.
Proof.
  pose proof (empty_history_never_accepts
                (Camera.step (Camera.step Camera.constructor
                    (Camera.SetBlockConfig
                       (Camera.mkBlockConfig (Some 6%nat) (Some 6%nat) 1)))
                 (Camera.Draw (Scenario.frameOf (mkPoint 15 15 15 1))))
                15 50
                (fun _ => Some (Some (mkDetection (repeat 0 72)
                                        (mkPoint 15 15 15 1))))
                (Camera.reach_step _ _
                   (Camera.reach_step _ _ Camera.reach_constructor))
                ltac:(lia))
    as (_ & (_ & Hk & _) & Hloop).
  split; [exact Hloop | exact Hk].
Defined.

(** ** The sample accumulator *)

Lemma draws_accumulate (c : Camera.t) (fs : list Frame) :
  let c' := fst (Camera.draws c fs) in
  length (Camera.objectPoints c')
  = (length (Camera.objectPoints c) + Camera.acceptedCount c fs)%nat /\
  length (Camera.imagePoints c')
  = (length (Camera.imagePoints c) + Camera.acceptedCount c fs)%nat /\
  Camera.captured c' = (Camera.captured c + Camera.acceptedCount c fs)%nat.
Proof.
  revert c. induction fs as [|f fs IH]; intro c.
  - simpl. repeat split; lia.
  - cbv zeta. rewrite draws_fst.
    destruct (IH (fst (Camera.draw c f))) as (Ho & Hi & Hk).
    rewrite Ho, Hi, Hk. simpl Camera.acceptedCount.
    destruct (Camera.accepted c f) eqn:E.
    + destruct (draw_accepted c f E) as (d & _ & ->). simpl.
      rewrite !length_app. simpl. repeat split; lia.
    + rewrite (draw_refused c f E). repeat split; lia.
Qed.

Lemma calib_draw_cases (c : CalibCamera.t) (k : CalibCamera.Tick) :
  (CalibCamera.objpointsMat (fst (CalibCamera.draw c k))
   = CalibCamera.objpointsMat c /\
   CalibCamera.imgpointsMat (fst (CalibCamera.draw c k))
   = CalibCamera.imgpointsMat c /\
   (CalibCamera.videoHeight k = 0%nat \/ CalibCamera.videoWidth k = 0%nat \/
    fst (Utils.call (CalibCamera.trigger c) (CalibCamera.now k)) = false \/
    CalibCamera.corners k = None \/ CalibCamera.objMat c = None)) \/
  (exists cs om,
     CalibCamera.videoHeight k <> 0%nat /\ CalibCamera.videoWidth k <> 0%nat /\
     fst (Utils.call (CalibCamera.trigger c) (CalibCamera.now k)) = true /\
     CalibCamera.corners k = Some cs /\ CalibCamera.objMat c = Some om /\
     CalibCamera.objpointsMat (fst (CalibCamera.draw c k))
     = CalibCamera.objpointsMat c ++ [om] /\
     CalibCamera.imgpointsMat (fst (CalibCamera.draw c k))
     = CalibCamera.imgpointsMat c
       ++ [CalibCamera.matFromArray
             (CalibCamera.colNum c * CalibCamera.rowNum c) 2 cs] /\
     snd (CalibCamera.draw c k)
     = if (15 <=? S (length (CalibCamera.objpointsMat c)))%nat
       then CalibCamera.Returned
              [CalibCamera.Calibrate
                 (CalibCamera.objpointsMat c ++ [om])
                 (CalibCamera.imgpointsMat c
                  ++ [CalibCamera.matFromArray
                        (CalibCamera.colNum c * CalibCamera.rowNum c) 2 cs])
                 (CalibCamera.videoWidth k, CalibCamera.videoHeight k)]
       else CalibCamera.Returned []).
Proof.
  unfold CalibCamera.draw.
  destruct (Nat.eqb_spec (CalibCamera.videoHeight k) 0) as [Hh|Hh];
    [left; simpl; auto 10|].
  destruct (Nat.eqb_spec (CalibCamera.videoWidth k) 0) as [Hw|Hw];
    [left; simpl; auto 10|].
  simpl orb. cbv iota.
  destruct (Utils.call (CalibCamera.trigger c) (CalibCamera.now k))
    as [fire trigger'].
  destruct fire; simpl negb; cbv iota; [|left; simpl; auto 10].
  destruct (CalibCamera.corners k) as [cs|]; [|left; simpl; auto 10].
  destruct (CalibCamera.objMat c) as [om|]; [|left; simpl; auto 10].
  right. exists cs, om. simpl. rewrite length_app, Nat.add_1_r.
  repeat split; assumption.
Qed.

Lemma calib_stores_iff (c : CalibCamera.t) (k : CalibCamera.Tick) :
  CalibCamera.stores c k = true <->
  CalibCamera.videoHeight k <> 0%nat /\ CalibCamera.videoWidth k <> 0%nat /\
  fst (Utils.call (CalibCamera.trigger c) (CalibCamera.now k)) = true /\
  CalibCamera.corners k <> None /\ CalibCamera.objMat c <> None.
Proof.
  unfold CalibCamera.stores. rewrite Nat.ltb_lt.
  destruct (calib_draw_cases c k)
    as [(Ho & _ & Hwhy) | (cs & om & Hh & Hw & Hf & Hc & Hm & Ho & _)].
  - rewrite Ho. split; [lia|].
    intros (Hh & Hw & Hf & Hc & Hm).
    destruct Hwhy as [E | [E | [E | [E | E]]]]; congruence.
  - rewrite Ho, length_app. simpl. split; [|lia].
    intros _. rewrite Hc, Hm. repeat split; try assumption; discriminate.
Qed.

(** C7, as stated, fails on the later camera model: a fresh camera whose
    pattern is set stores a sample on its first allowed tick with the
    board in view, although no pose at all would be accepted against its
    (empty) history; its [draw] makes no novelty evaluation. *)
Lemma sample_stored_without_acceptance :
  let c := CalibCamera.set_blockConfig
             (CalibCamera.constructor (CalibCamera.mkCameraConfig None))
             (CalibCamera.mkBlockConfig (Some 6%nat) (Some 6%nat) 1) in
  let k := CalibCamera.mkTick 640 480 100 (Some (repeat 0 72)) in
  length (CalibCamera.objpointsMat c) = 0%nat /\
  length (CalibCamera.objpointsMat (fst (CalibCamera.draw c k))) = 1%nat /\
  CalibCamera.anglesHist (fst (CalibCamera.draw c k)) = [] /\
  forall P, accepts (getGuidance P (CalibCamera.anglesHist c)) = false.
Proof.
  repeat split.
Qed.

(** C7, amended: in both camera models the accumulator never shrinks
    across ticks.  In src/models/camera.ts a sample is appended on a tick
    exactly when the tick's novelty evaluation accepted the pose, so after
    any ticks the accumulator has grown by the number of accepting
    evaluations.  In the later model no novelty evaluation is made: a
    sample is appended exactly on the ticks that have a video size, pass
    the frame-rate gate and find the board (the pattern matrix being
    set). *)
Theorem accumulator_growth
  (c : Camera.t) (f : Frame) (fs : list Frame)
  (cc : CalibCamera.t) (k : CalibCamera.Tick) :
  (length (Camera.objectPoints (fst (Camera.draw c f)))
   = (length (Camera.objectPoints c)
      + if Camera.accepted c f then 1 else 0)%nat /\
   length (Camera.imagePoints (fst (Camera.draw c f)))
   = (length (Camera.imagePoints c)
      + if Camera.accepted c f then 1 else 0)%nat) /\
  (length (Camera.objectPoints (fst (Camera.draws c fs)))
   = (length (Camera.objectPoints c) + Camera.acceptedCount c fs)%nat /\
   length (Camera.imagePoints (fst (Camera.draws c fs)))
   = (length (Camera.imagePoints c) + Camera.acceptedCount c fs)%nat /\
   Camera.captured (fst (Camera.draws c fs))
   = (Camera.captured c + Camera.acceptedCount c fs)%nat) /\
  (length (CalibCamera.objpointsMat cc)
   <= length (CalibCamera.objpointsMat (fst (CalibCamera.draw cc k))))%nat /\
  (CalibCamera.stores cc k = true <->
   CalibCamera.videoHeight k <> 0%nat /\ CalibCamera.videoWidth k <> 0%nat /\
   fst (Utils.call (CalibCamera.trigger cc) (CalibCamera.now k)) = true /\
   CalibCamera.corners k <> None /\ CalibCamera.objMat cc <> None).
Proof.
  split; [|split; [|split]].
  - destruct (Camera.accepted c f) eqn:E.
    + destruct (draw_accepted c f E) as (d & _ & ->). simpl.
      rewrite !length_app. simpl. split; reflexivity.
    + rewrite (draw_refused c f E). split; lia.
  - exact (draws_accumulate c fs).
  - destruct (calib_draw_cases cc k)
      as [(Ho & _) | (cs & om & _ & _ & _ & _ & _ & Ho & _)]; rewrite Ho.
    + lia.
    + rewrite length_app. lia.
  - apply calib_stores_iff.
Qed.

(** ** The calibration trigger *)

(** C8: on a tick that stores a sample, the solver is called when the
    count, the new sample included, is at least 15, with all the object
    and image point sets stored so far and the size of the frame, and it
    is not called below 15; nothing remembers that it was called, so once
    15 samples are there every further stored sample calls it again. *)
Theorem calibration_on_every_stored_sample
  (c : CalibCamera.t) (k : CalibCamera.Tick)
  (Hstore : CalibCamera.stores c k = true) :
  let c' := fst (CalibCamera.draw c k) in
  let call := CalibCamera.Calibrate (CalibCamera.objpointsMat c')
                (CalibCamera.imgpointsMat c')
                (CalibCamera.videoWidth k, CalibCamera.videoHeight k) in
  length (CalibCamera.objpointsMat c') = S (length (CalibCamera.objpointsMat c)) /\
  length (CalibCamera.imgpointsMat c') = S (length (CalibCamera.imgpointsMat c)) /\
  ((15 <= length (CalibCamera.objpointsMat c'))%nat ->
   snd (CalibCamera.draw c k) = CalibCamera.Returned [call]) /\
  ((length (CalibCamera.objpointsMat c') < 15)%nat ->
   snd (CalibCamera.draw c k) = CalibCamera.Returned []) /\
  ((15 <= length (CalibCamera.objpointsMat c))%nat ->
   snd (CalibCamera.draw c k) = CalibCamera.Returned [call]).
Proof.
  cbv zeta. apply calib_stores_iff in Hstore.
  destruct Hstore as (Hh & Hw & Hf & Hc & Hm).
  destruct (calib_draw_cases c k)
    as [(_ & _ & Hwhy) | (cs & om & _ & _ & _ & _ & _ & Ho & Hi & Hout)].
  { destruct Hwhy as [E | [E | [E | [E | E]]]]; congruence. }
  rewrite Ho, Hi, Hout, !length_app, !Nat.add_1_r.
  repeat split.
  - intro Hn. destruct (Nat.leb_spec 15 (S (length (CalibCamera.objpointsMat c))));
      [reflexivity | lia].
  - intro Hn. destruct (Nat.leb_spec 15 (S (length (CalibCamera.objpointsMat c))));
      [lia | reflexivity].
  - intro Hn. destruct (Nat.leb_spec 15 (S (length (CalibCamera.objpointsMat c))));
      [reflexivity | lia].
Qed.

Lemma calibration_on_every_stored_sample_witness :
  let om := CalibCamera.matFromArray 36 3 (repeat 0 108) in
  let im := CalibCamera.matFromArray 36 2 (repeat 0 72) in
  let c := CalibCamera.mk 6 6 1 [] 10 (Utils.createTrigger 10) None None
             (Some om) (repeat om 15) (repeat im 15) in
  let k := CalibCamera.mkTick 640 480 100 (Some (repeat 0 72)) in
  snd (CalibCamera.draw c k)
  = CalibCamera.Returned
      [CalibCamera.Calibrate (repeat om 16) (repeat im 16) (640%nat, 480%nat)].
Proof.
  intros om im c k.
  pose proof (calibration_on_every_stored_sample c k eq_refl) as H.
  cbv zeta in H. destruct H as (_ & _ & _ & _ & H).
  rewrite H; [reflexivity | vm_compute; repeat constructor].
Defined.

(** ** The frame-rate gate *)

Lemma reaches_iff (iv : option Q) (d : Q) :
  Utils.reaches iv d = true <-> exists i, iv = Some i /\ i <= d.
Proof.
  destruct iv as [i|]; simpl.
  - unfold Qgeb. rewrite Qle_bool_iff. split.
    + intro H. exists i. now split.
    + intros (i' & [= <-] & H). exact H.
  - split; [discriminate | intros (i & [=] & _)].
Qed.

Lemma call_fired (t : Utils.Trigger) (now : Q) :
  fst (Utils.call t now) = true ->
  Utils.reaches (Utils.trig_interval t) (now - Utils.lastTime t) = true /\
  snd (Utils.call t now) = Utils.mkTrigger (Utils.trig_interval t) now.
Proof.
  unfold Utils.call.
  destruct (Utils.reaches (Utils.trig_interval t) (now - Utils.lastTime t));
    simpl; [now split | discriminate].
Qed.

Lemma call_idle (t : Utils.Trigger) (now : Q) :
  fst (Utils.call t now) = false ->
  Utils.reaches (Utils.trig_interval t) (now - Utils.lastTime t) = false /\
  snd (Utils.call t now) = t.
Proof.
  unfold Utils.call.
  destruct (Utils.reaches (Utils.trig_interval t) (now - Utils.lastTime t));
    simpl; [discriminate | now split].
Qed.

Lemma call_interval (t : Utils.Trigger) (now : Q) :
  Utils.trig_interval (snd (Utils.call t now)) = Utils.trig_interval t.
Proof.
  unfold Utils.call.
  destruct (Utils.reaches (Utils.trig_interval t) (now - Utils.lastTime t));
    reflexivity.
Qed.

(** A call that answers true comes at least one interval after the stored
    time, when the clock never runs below that time. *)
Lemma fired_after_last (nows : list Q) (t : Utils.Trigger) (j : nat) (tj : Q) :
  StronglySorted Qle nows ->
  (forall x, In x nows -> Utils.lastTime t <= x) ->
  nth_error nows j = Some tj ->
  nth_error (Utils.calls t nows) j = Some true ->
  Utils.reaches (Utils.trig_interval t) (tj - Utils.lastTime t) = true.
Proof.
  revert t j. induction nows as [|x xs IH]; intros t j Hs Hlow Hj Hf.
  - destruct j; discriminate Hj.
  - apply StronglySorted_inv in Hs. destruct Hs as [Hs Hx].
    rewrite Forall_forall in Hx.
    destruct j as [|j]; simpl in Hj, Hf.
    + injection Hj as <-. injection Hf as Hf. now apply call_fired in Hf.
    + destruct (fst (Utils.call t x)) eqn:E.
      * destruct (call_fired t x E) as [_ Ht'].
        specialize (IH (snd (Utils.call t x)) j Hs).
        rewrite Ht' in IH. simpl in IH. rewrite Ht' in Hf.
        specialize (IH Hx Hj Hf).
        apply reaches_iff in IH. destruct IH as (i & Hi & Hle).
        apply reaches_iff. exists i. split; [exact Hi|].
        pose proof (Hlow x (or_introl eq_refl)). lra.
      * destruct (call_idle t x E) as [_ Ht']. rewrite Ht' in Hf.
        apply (IH t j Hs); try assumption.
        intros y Hy. apply Hlow. now right.
Qed.

Lemma fired_spacing (nows : list Q) (t : Utils.Trigger) (i j : nat)
  (ti tj : Q) :
  StronglySorted Qle nows -> (i < j)%nat ->
  nth_error nows i = Some ti -> nth_error nows j = Some tj ->
  nth_error (Utils.calls t nows) i = Some true ->
  nth_error (Utils.calls t nows) j = Some true ->
  Utils.reaches (Utils.trig_interval t) (tj - ti) = true.
Proof.
  revert t i j. induction nows as [|x xs IH]; intros t i j Hs Hij Hi Hj Hfi Hfj.
  - destruct i; discriminate Hi.
  - apply StronglySorted_inv in Hs. destruct Hs as [Hs Hx].
    rewrite Forall_forall in Hx.
    destruct j as [|j]; [lia|]. simpl in Hj, Hfj.
    destruct i as [|i]; simpl in Hi, Hfi.
    + injection Hi as ->. injection Hfi as Hfi.
      destruct (call_fired t ti Hfi) as [_ Ht']. rewrite Ht' in Hfj.
      exact (fired_after_last xs
               (Utils.mkTrigger (Utils.trig_interval t) ti) j tj Hs Hx Hj Hfj).
    + rewrite <- (call_interval t x).
      apply (IH (snd (Utils.call t x)) i j); try assumption. lia.
Qed.

(** C5, as stated, fails in its example: with fps = 10 the calls at 0, 50,
    100 and 150 ms are not answered true, false, false, true. *)
Lemma trigger_example_differs :
  Utils.calls (Utils.createTrigger 10) [0; 50; 100; 150]
  <> [true; false; false; true].
Proof.
  vm_compute. discriminate.
Qed.

(** C5, amended: a call of the gate answers true exactly when at least
    1000/fps ms have passed since the stored time, which starts at 0 and is
    set to the time of the call only when the answer is true; a call that
    answers false changes nothing.  When the clock never runs backwards,
    two calls that answer true are at least 1000/fps ms apart.  With
    fps = 10 the calls at 0, 50, 100 and 150 ms are answered false, false,
    true, false. *)
Theorem trigger_gate
  (fps : Q) (nows : list Q) (i j : nat) (ti tj : Q)
  (Hclock : Sorted Qle nows) (Hij : (i < j)%nat)
  (Hi : nth_error nows i = Some ti) (Hj : nth_error nows j = Some tj)
  (Hfi : nth_error (Utils.calls (Utils.createTrigger fps) nows) i = Some true)
  (Hfj : nth_error (Utils.calls (Utils.createTrigger fps) nows) j = Some true) :
  (forall t now,
      (fst (Utils.call t now) = true <->
       exists iv, Utils.trig_interval t = Some iv /\
                  iv <= now - Utils.lastTime t) /\
      snd (Utils.call t now)
      = if fst (Utils.call t now)
        then Utils.mkTrigger (Utils.trig_interval t) now
        else t) /\
  Utils.lastTime (Utils.createTrigger fps) = 0 /\
  (~ fps == 0 ->
   Utils.trig_interval (Utils.createTrigger fps) = Some (1000 / fps)) /\
  (exists iv, Utils.interval fps = Some iv /\ iv <= tj - ti) /\
  Utils.calls (Utils.createTrigger 10) [0; 50; 100; 150]
  = [false; false; true; false].
Proof.
  split; [|split; [|split; [|split]]].
  - intros t now. split.
    + rewrite <- reaches_iff. unfold Utils.call.
      destruct (Utils.reaches (Utils.trig_interval t) (now - Utils.lastTime t));
        simpl; split; congruence.
    + destruct (fst (Utils.call t now)) eqn:E.
      * now apply call_fired.
      * now apply call_idle.
  - reflexivity.
  - intro Hfps. simpl. unfold Utils.interval.
    destruct (Qeq_bool fps 0) eqn:E; [|reflexivity].
    apply Qeq_bool_iff in E. contradiction.
  - apply reaches_iff.
    change (Utils.interval fps)
      with (Utils.trig_interval (Utils.createTrigger fps)).
    apply (fired_spacing nows _ i j); try assumption.
    apply Sorted_StronglySorted; [|exact Hclock].
    intros x y z. apply Qle_trans.
  - vm_compute. reflexivity.
Qed.

Lemma trigger_gate_witness :
  exists iv, Utils.interval 10 = Some iv /\ iv <= 200 - 100.
Proof.
  refine (proj1 (proj2 (proj2 (proj2
    (trigger_gate 10 [0; 50; 100; 150; 200] 2 4 100 200 _ _
       eq_refl eq_refl eq_refl eq_refl))))).
  - repeat constructor; unfold Qle; simpl; lia.
  - lia.
Defined.

(** ** Construction *)

(** C6, as stated, fails: the constructor takes a negative fps as it is
    and replaces a zero fps by 10; neither construction fails. *)
Lemma nonpositive_fps_is_constructed :
  CalibCamera.fps
    (CalibCamera.constructor (CalibCamera.mkCameraConfig (Some (-5)))) = -5 /\
  CalibCamera.fps
    (CalibCamera.constructor (CalibCamera.mkCameraConfig (Some 0))) = 10.
Proof.
  split; reflexivity.
Qed.

(** C6, amended: the fps is fixed at construction and is 10 by default;
    the constructor never fails: a missing or zero fps is replaced by 10,
    any other value, negative ones included, is taken as it is and the
    gate is created from it; no call of [draw] and no pattern change
    alters the fps. *)
Theorem fps_fixed_at_construction
  (config : CalibCamera.CameraConfig) :
  let c := CalibCamera.constructor config in
  (CalibCamera.cfg_fps config = None -> CalibCamera.fps c = 10) /\
  (forall v, CalibCamera.cfg_fps config = Some v -> v == 0 ->
             CalibCamera.fps c = 10) /\
  (forall v, CalibCamera.cfg_fps config = Some v -> ~ v == 0 ->
             CalibCamera.fps c = v) /\
  ~ CalibCamera.fps c == 0 /\
  CalibCamera.trigger c
  = Utils.mkTrigger (Some (1000 / CalibCamera.fps c)) 0 /\
  (forall c0 k, CalibCamera.fps (fst (CalibCamera.draw c0 k))
                = CalibCamera.fps c0) /\
  (forall c0 b, CalibCamera.fps (CalibCamera.set_blockConfig c0 b)
                = CalibCamera.fps c0).
Proof.
  cbv zeta.
  assert (Hnz : ~ CalibCamera.fps (CalibCamera.constructor config) == 0).
  { unfold CalibCamera.constructor; simpl.
    destruct (CalibCamera.cfg_fps config) as [v|]; simpl;
      [|intro H; vm_compute in H; discriminate H].
    unfold num_or. destruct (Qeq_bool v 0) eqn:E.
    - intro H; vm_compute in H; discriminate H.
    - apply Qeq_bool_neq. exact E. }
  split; [|split; [|split; [|split; [|split; [|split]]]]].
  - intro H. unfold CalibCamera.constructor; simpl. rewrite H. reflexivity.
  - intros v H Hv. apply Qeq_bool_iff in Hv.
    unfold CalibCamera.constructor; simpl. rewrite H. simpl.
    unfold num_or. now rewrite Hv.
  - intros v H Hv. unfold CalibCamera.constructor; simpl. rewrite H. simpl.
    unfold num_or. destruct (Qeq_bool v 0) eqn:E; [|reflexivity].
    apply Qeq_bool_iff in E. contradiction.
  - exact Hnz.
  - unfold CalibCamera.constructor in *; simpl in *.
    unfold Utils.createTrigger, Utils.interval.
    destruct (Qeq_bool (opt_num_or (CalibCamera.cfg_fps config) 10) 0) eqn:E;
      [|reflexivity].
    apply Qeq_bool_iff in E. contradiction.
  - intros c0 k. unfold CalibCamera.draw.
    destruct ((CalibCamera.videoHeight k =? 0)%nat
              || (CalibCamera.videoWidth k =? 0)%nat); [reflexivity|].
    destruct (Utils.call (CalibCamera.trigger c0) (CalibCamera.now k))
      as [fire trigger'].
    destruct fire; simpl; [|reflexivity].
    destruct (CalibCamera.corners k); [|reflexivity].
    destruct (CalibCamera.objMat c0); reflexivity.
  - intros c0 b. reflexivity.
Qed.

Lemma fps_fixed_at_construction_witness :
  CalibCamera.fps
    (CalibCamera.constructor (CalibCamera.mkCameraConfig (Some (-5)))) = -5.
Proof.
  refine (proj1 (proj2 (proj2
    (fps_fixed_at_construction (CalibCamera.mkCameraConfig (Some (-5))))))
    (-5) eq_refl _).
  intro H. vm_compute in H. discriminate H.
Defined.

(** ** The object-point grid *)

Lemma objRow_length (sq : Q) (i j n : nat) : length (objRow sq i j n) = n.
Proof.
  revert j. induction n as [|n IH]; intro j; simpl; [|rewrite IH]; reflexivity.
Qed.

Lemma objRow_nth (sq : Q) (i j0 n j : nat) :
  (j < n)%nat ->
  nth_error (objRow sq i j0 n) j
  = Some [inject_Z (Z.of_nat (j0 + j)) * sq; inject_Z (Z.of_nat i) * sq; 0].
Proof.
  revert j0 j. induction n as [|n IH]; intros j0 j Hj; [lia|].
  destruct j as [|j]; simpl.
  - rewrite Nat.add_0_r. reflexivity.
  - rewrite IH by lia. rewrite Nat.add_succ_r. reflexivity.
Qed.

Lemma objRows_length (sq : Q) (cols i n : nat) :
  length (objRows sq cols i n) = (n * cols)%nat.
Proof.
  revert i. induction n as [|n IH]; intro i; simpl; [reflexivity|].
  rewrite length_app, objRow_length, IH. reflexivity.
Qed.

Lemma objRows_nth (sq : Q) (cols i0 n i j : nat) :
  (i < n)%nat -> (j < cols)%nat ->
  nth_error (objRows sq cols i0 n) (i * cols + j)
  = Some [inject_Z (Z.of_nat j) * sq; inject_Z (Z.of_nat (i0 + i)) * sq; 0].
Proof.
  revert i0 i. induction n as [|n IH]; intros i0 i Hi Hj; [lia|].
  simpl. destruct i as [|i].
  - rewrite nth_error_app1 by (rewrite objRow_length; simpl; lia).
    simpl. rewrite objRow_nth by exact Hj. rewrite Nat.add_0_r. reflexivity.
  - rewrite nth_error_app2 by (rewrite objRow_length; simpl; lia).
    rewrite objRow_length.
    replace (S i * cols + j - cols)%nat with (i * cols + j)%nat
      by (simpl; lia).
    rewrite IH by lia. rewrite Nat.add_succ_r. reflexivity.
Qed.

(** C10: the grid for columns = 6, rows = 6, squareSize = 1 is the 36
    points [0,0,0], [1,0,0], ..., [5,5,0] in row-major order; in general
    the grid has rows*columns points and the point of row i and column j,
    at index i*columns + j, is (j*squareSize, i*squareSize, 0). *)
Theorem object_grid_row_major
  (colNum rowNum : nat) (squareSize : Q) (i j : nat)
  (Hi : (i < rowNum)%nat) (Hj : (j < colNum)%nat) :
  prepareObjectPoints 6 6 1
  = [
   [0; 0; 0]; [1; 0; 0]; [2; 0; 0]; [3; 0; 0]; [4; 0; 0]; [5; 0; 0];
   [0; 1; 0]; [1; 1; 0]; [2; 1; 0]; [3; 1; 0]; [4; 1; 0]; [5; 1; 0];
   [0; 2; 0]; [1; 2; 0]; [2; 2; 0]; [3; 2; 0]; [4; 2; 0]; [5; 2; 0];
   [0; 3; 0]; [1; 3; 0]; [2; 3; 0]; [3; 3; 0]; [4; 3; 0]; [5; 3; 0];
   [0; 4; 0]; [1; 4; 0]; [2; 4; 0]; [3; 4; 0]; [4; 4; 0]; [5; 4; 0];
   [0; 5; 0]; [1; 5; 0]; [2; 5; 0]; [3; 5; 0]; [4; 5; 0]; [5; 5; 0]
    ] /\
  length (prepareObjectPoints colNum rowNum squareSize)
  = (rowNum * colNum)%nat /\
  nth_error (prepareObjectPoints colNum rowNum squareSize) (i * colNum + j)
  = Some [inject_Z (Z.of_nat j) * squareSize;
          inject_Z (Z.of_nat i) * squareSize; 0].
Proof.
  split; [vm_compute; reflexivity | split].
  - apply objRows_length.
  - unfold prepareObjectPoints. rewrite objRows_nth by assumption. reflexivity.
Qed.

Lemma object_grid_row_major_witness :
  nth_error (prepareObjectPoints 6 6 1) (2 * 6 + 3)
  = Some [inject_Z 3 * 1; inject_Z 2 * 1; 0].
Proof.
  refine (proj2 (proj2 (object_grid_row_major 6 6 1 2 3 _ _))); lia.
Defined.

(** * Further properties of the code *)

(** ** The answers of [getGuidance] *)

Lemma axisFar_iff (axis : Point -> Q) (P : Point) (H : list Point) :
  axisFar axis P H = true <->
  exists h, In h H /\ threshold <= Qabs (axis P - axis h).
Proof.
  unfold axisFar. rewrite negb_true_iff, Qltb_ge, axisMax_reaches.
  split; [|intro Hex; now right].
  intros [Hle | Hex]; [|exact Hex].
  exfalso. vm_compute in Hle. now apply Hle.
Qed.

Lemma axisFar_not_iff (axis : Point -> Q) (P : Point) (H : list Point) :
  axisFar axis P H = false <->
  forall h, In h H -> Qabs (axis P - axis h) < threshold.
Proof.
  split.
  - intros Hfar h Hin. apply Qnot_le_lt. intro Hle.
    assert (Ht : axisFar axis P H = true)
      by (apply axisFar_iff; exists h; now split).
    congruence.
  - intro Hall. destruct (axisFar axis P H) eqn:E; [|reflexivity].
    apply axisFar_iff in E. destruct E as (h & Hin & Hle).
    exfalso. exact (Qlt_not_le _ _ (Hall h Hin) Hle).
Qed.

Lemma getGuidance_by_axes (P : Point) (H : list Point) :
  getGuidance P H
  = if negb (axisFar pitch P H) then msgVertical
    else if negb (axisFar yaw P H) then msgHorizontal
    else if negb (axisFar roll P H) then msgRotate
    else msgOk.
Proof.
  unfold getGuidance, maxDiffs, axisFar. rewrite maxDiffs_axes.
  rewrite !negb_involutive. reflexivity.
Qed.

Lemma messages_differ :
  msgVertical <> msgHorizontal /\ msgVertical <> msgRotate /\
  msgVertical <> msgOk /\ msgHorizontal <> msgRotate /\
  msgHorizontal <> msgOk /\ msgRotate <> msgOk.
Proof.
  repeat split; intro H; apply String.eqb_eq in H; vm_compute in H;
    discriminate H.
Qed.

Lemma guidance_axes_table (P : Point) (H : list Point) :
  (getGuidance P H = msgVertical <-> axisFar pitch P H = false) /\
  (getGuidance P H = msgHorizontal <->
   axisFar pitch P H = true /\ axisFar yaw P H = false) /\
  (getGuidance P H = msgRotate <->
   axisFar pitch P H = true /\ axisFar yaw P H = true /\
   axisFar roll P H = false) /\
  (getGuidance P H = msgOk <->
   axisFar pitch P H = true /\ axisFar yaw P H = true /\
   axisFar roll P H = true).
Proof.
  rewrite getGuidance_by_axes.
  destruct messages_differ as (Hvh & Hvr & Hvo & Hhr & Hho & Hro).
  destruct (axisFar pitch P H), (axisFar yaw P H), (axisFar roll P H);
    simpl; repeat split; try reflexivity; try (exfalso; congruence);
    intuition congruence.
Qed.

(** The four answers of [getGuidance], by what the history holds: the
    vertical message when no entry differs by 10 or more in pitch; the
    horizontal one when some entry does in pitch but none in yaw; the
    rotate one when some do in pitch and in yaw but none in roll; the
    accept message when, on each axis, some entry does. *)
Theorem guidance_by_axis_order (P : Point) (H : list Point) :
  let far axis := exists h, In h H /\ threshold <= Qabs (axis P - axis h) in
  let near axis := forall h, In h H -> Qabs (axis P - axis h) < threshold in
  (getGuidance P H = msgVertical <-> near pitch) /\
  (getGuidance P H = msgHorizontal <-> far pitch /\ near yaw) /\
  (getGuidance P H = msgRotate <-> far pitch /\ far yaw /\ near roll) /\
  (getGuidance P H = msgOk <-> far pitch /\ far yaw /\ far roll).
Proof.
  cbv zeta. rewrite <- !axisFar_iff, <- !axisFar_not_iff.
  apply guidance_axes_table.
Qed.

(** A larger history never takes an acceptance back: a pose accepted
    against a history is accepted against every history that holds at
    least the same poses; and a pose sent back to the pitch axis by the
    larger history is sent back to it by the smaller one. *)
Theorem acceptance_grows_with_history (P : Point) (H H' : list Point)
  (Hsub : incl H H') :
  (accepts (getGuidance P H) = true -> accepts (getGuidance P H') = true) /\
  (getGuidance P H' = msgVertical -> getGuidance P H = msgVertical).
Proof.
  assert (Hfar : forall axis, axisFar axis P H = true ->
                              axisFar axis P H' = true).
  { intros axis Hf. apply axisFar_iff in Hf. destruct Hf as (h & Hin & Hle).
    apply axisFar_iff. exists h. split; [apply Hsub; exact Hin | exact Hle]. }
  split.
  - rewrite !accepts_iff.
    intro Hok. apply (guidance_axes_table P H) in Hok.
    apply (guidance_axes_table P H').
    destruct Hok as (Hp & Hy & Hr). auto.
  - intro Hv. apply (guidance_axes_table P H') in Hv.
    apply (guidance_axes_table P H).
    destruct (axisFar pitch P H) eqn:E; [|reflexivity].
    apply Hfar in E. congruence.
Qed.

Lemma acceptance_grows_with_history_witness :
  accepts (getGuidance (mkPoint 15 15 15 1)
             [mkPoint 15 15 15 1; mkPoint 0 0 0 1]) = true.
Proof.
  apply (proj1 (acceptance_grows_with_history (mkPoint 15 15 15 1)
                  [mkPoint 0 0 0 1] [mkPoint 15 15 15 1; mkPoint 0 0 0 1]
                  ltac:(intros h [<- | []]; right; now left))).
  reflexivity.
Defined.

(** The answer depends on the history only through the poses it holds:
    their order and their repetitions do not matter. *)
Theorem guidance_ignores_history_order (P : Point) (H H' : list Point)
  (Hsame : forall h, In h H <-> In h H') :
  getGuidance P H = getGuidance P H'.
Proof.
  assert (Hfar : forall axis, axisFar axis P H = axisFar axis P H').
  { intro axis.
    destruct (axisFar axis P H) eqn:E, (axisFar axis P H') eqn:E';
      try reflexivity.
    - apply axisFar_iff in E. destruct E as (h & Hin & Hle).
      assert (Ht : axisFar axis P H' = true)
        by (apply axisFar_iff; exists h; split; [now apply Hsame | exact Hle]).
      congruence.
    - apply axisFar_iff in E'. destruct E' as (h & Hin & Hle).
      assert (Ht : axisFar axis P H = true)
        by (apply axisFar_iff; exists h; split; [now apply Hsame | exact Hle]).
      congruence. }
  rewrite !getGuidance_by_axes, !Hfar. reflexivity.
Qed.

Lemma guidance_ignores_history_order_witness :
  getGuidance (mkPoint 15 15 0 1) [mkPoint 0 0 0 1; mkPoint 15 0 0 1]
  = getGuidance (mkPoint 15 15 0 1)
      [mkPoint 15 0 0 1; mkPoint 0 0 0 1; mkPoint 15 0 0 1].
Proof.
  apply (guidance_ignores_history_order (mkPoint 15 15 0 1)
           [mkPoint 0 0 0 1; mkPoint 15 0 0 1]
           [mkPoint 15 0 0 1; mkPoint 0 0 0 1; mkPoint 15 0 0 1]).
  intro h. simpl. tauto.
Defined.

Lemma axisMax_same_angles (axis : Point -> Q) (P P' : Point)
  (H H' : list Point) (m : Q) :
  axis P = axis P' -> map axis H = map axis H' ->
  axisMax axis P H m = axisMax axis P' H' m.
Proof.
  intros HP. unfold axisMax. rewrite <- HP. clear HP. revert H' m.
  induction H as [|h H IH]; intros [|h' H'] m Hmap; try discriminate Hmap.
  - reflexivity.
  - injection Hmap as Hh Hmap. cbn [fold_left].
    rewrite Hh. apply IH. exact Hmap.
Qed.

(** The distance of a pose plays no part: two evaluations whose poses
    have the same three angles, entry by entry, give the same answer. *)
Theorem guidance_ignores_distance (P P' : Point) (H H' : list Point)
  (HP : anglesOf P = anglesOf P')
  (HH : map anglesOf H = map anglesOf H') :
  getGuidance P H = getGuidance P' H'.
Proof.
  injection HP as Hp Hy Hr.
  assert (Hmap : forall axis : Point -> Q,
             (forall h h', anglesOf h = anglesOf h' -> axis h = axis h') ->
             map axis H = map axis H').
  { intros axis Hax. revert H' HH.
    induction H as [|h H IH]; intros [|h' H'] HH; try discriminate HH.
    - reflexivity.
    - injection HH as Hhp Hhy Hhr HH. simpl. f_equal; [|now apply IH].
      apply Hax. unfold anglesOf. now rewrite Hhp, Hhy, Hhr. }
  unfold getGuidance, maxDiffs. rewrite !maxDiffs_axes.
  rewrite (axisMax_same_angles pitch P P' H H'),
          (axisMax_same_angles yaw P P' H H'),
          (axisMax_same_angles roll P P' H H'); try assumption;
    try reflexivity;
    apply Hmap; intros h h' [= ? ? ?]; assumption.
Qed.

Lemma guidance_ignores_distance_witness :
  getGuidance (mkPoint 15 15 15 1) [mkPoint 0 0 0 1]
  = getGuidance (mkPoint 15 15 15 7) [mkPoint 0 0 0 3].
Proof.
  apply (guidance_ignores_distance (mkPoint 15 15 15 1) (mkPoint 15 15 15 7)
           [mkPoint 0 0 0 1] [mkPoint 0 0 0 3]); reflexivity.
Defined.

(** ** What [draw] keeps *)

Lemma draw_appends (c : Camera.t) (f : Frame) :
  exists hs os ims,
    Camera.anglesHist (fst (Camera.draw c f)) = Camera.anglesHist c ++ hs /\
    Camera.objectPoints (fst (Camera.draw c f)) = Camera.objectPoints c ++ os /\
    Camera.imagePoints (fst (Camera.draw c f)) = Camera.imagePoints c ++ ims.
Proof.
  destruct (Camera.accepted c f) eqn:E.
  - destruct (draw_accepted c f E) as (d & _ & ->). simpl.
    now exists [angles d], [Camera.objp c], [data32F d].
  - rewrite (draw_refused c f E). exists [], [], [].
    now rewrite !app_nil_r.
Qed.

Lemma calib_run_cons (c : CalibCamera.t) (k : CalibCamera.Tick)
  (ks : list CalibCamera.Tick) :
  CalibSession.run c (k :: ks)
  = CalibSession.run (fst (CalibCamera.draw c k)) ks.
Proof. reflexivity. Qed.

(** Stored samples are never removed, replaced or reordered: after any
    calls of [draw], in either camera model, the history and the point
    lists begin with what they held before. *)
Theorem samples_are_only_appended
  (c : Camera.t) (fs : list Frame)
  (cc : CalibCamera.t) (ks : list CalibCamera.Tick) :
  (exists hs os ims,
     Camera.anglesHist (fst (Camera.draws c fs)) = Camera.anglesHist c ++ hs /\
     Camera.objectPoints (fst (Camera.draws c fs))
     = Camera.objectPoints c ++ os /\
     Camera.imagePoints (fst (Camera.draws c fs))
     = Camera.imagePoints c ++ ims) /\
  (exists os ims,
     CalibCamera.objpointsMat (CalibSession.run cc ks)
     = CalibCamera.objpointsMat cc ++ os /\
     CalibCamera.imgpointsMat (CalibSession.run cc ks)
     = CalibCamera.imgpointsMat cc ++ ims).
Proof.
  split.
  - revert c. induction fs as [|f fs IH]; intro c.
    + exists [], [], []. simpl. now rewrite !app_nil_r.
    + rewrite draws_fst.
      destruct (IH (fst (Camera.draw c f)))
        as (hs & os & ims & Hh & Ho & Hi).
      destruct (draw_appends c f) as (hs0 & os0 & ims0 & Hh0 & Ho0 & Hi0).
      exists (hs0 ++ hs), (os0 ++ os), (ims0 ++ ims).
      rewrite Hh, Ho, Hi, Hh0, Ho0, Hi0, !app_assoc. repeat split.
  - revert cc. induction ks as [|k ks IH]; intro cc.
    + exists [], []. simpl. now rewrite !app_nil_r.
    + rewrite calib_run_cons.
      destruct (IH (fst (CalibCamera.draw cc k))) as (os & ims & Ho & Hi).
      rewrite Ho, Hi.
      destruct (calib_draw_cases cc k)
        as [(Ho0 & Hi0 & _)
           | (cs & om & _ & _ & _ & _ & _ & Ho0 & Hi0 & _)];
        rewrite Ho0, Hi0.
      * now exists os, ims.
      * eexists _, _. rewrite <- !app_assoc. split; reflexivity.
Qed.

(** ** The pattern and its grid *)

Lemma objRow_shape (sq : Q) (i j n : nat) :
  Forall (fun p => length p = 3%nat /\ nth 2 p 1 = 0) (objRow sq i j n).
Proof.
  revert j. induction n as [|n IH]; intro j; simpl; constructor.
  - split; reflexivity.
  - apply IH.
Qed.

Lemma objRows_shape (sq : Q) (cols i n : nat) :
  Forall (fun p => length p = 3%nat /\ nth 2 p 1 = 0) (objRows sq cols i n).
Proof.
  revert i. induction n as [|n IH]; intro i; simpl.
  - constructor.
  - apply Forall_app. split; [apply objRow_shape | apply IH].
Qed.

Lemma concat_length_3 (l : list (list Q)) :
  Forall (fun p => length p = 3%nat /\ nth 2 p 1 = 0) l ->
  length (concat l) = (length l * 3)%nat.
Proof.
  induction 1 as [|p l [Hp _] _ IH]; simpl.
  - reflexivity.
  - rewrite length_app, Hp, IH. reflexivity.
Qed.

(** The grid of [prepareObjectPoints] is empty exactly when the pattern
    has no row or no column; each of its points has three coordinates,
    the third being 0; flattened, it has 3 * rows * columns numbers. *)
Theorem object_grid_shape (colNum rowNum : nat) (squareSize : Q) :
  (prepareObjectPoints colNum rowNum squareSize = [] <->
   rowNum = 0%nat \/ colNum = 0%nat) /\
  Forall (fun p => length p = 3%nat /\ nth 2 p 1 = 0)
         (prepareObjectPoints colNum rowNum squareSize) /\
  length (concat (prepareObjectPoints colNum rowNum squareSize))
  = (rowNum * colNum * 3)%nat.
Proof.
  split; [|split].
  - rewrite <- length_zero_iff_nil.
    unfold prepareObjectPoints. rewrite objRows_length. lia.
  - apply objRows_shape.
  - rewrite concat_length_3 by apply objRows_shape.
    unfold prepareObjectPoints. rewrite objRows_length. reflexivity.
Qed.

Lemma num_or_idem (x d : Q) : num_or x (num_or x d) = num_or x d.
Proof. unfold num_or. destruct (Qeq_bool x 0); reflexivity. Qed.

Lemma opt_nat_or_idem (x : option nat) (d : nat) :
  opt_nat_or x (opt_nat_or x d) = opt_nat_or x d.
Proof. destruct x as [[|v]|]; reflexivity. Qed.

Lemma opt_nat_or_pos (x : option nat) (d : nat) :
  d <> 0%nat -> opt_nat_or x d <> 0%nat.
Proof. destruct x as [[|v]|]; simpl; auto. Qed.

Lemma num_or_nonzero (x d : Q) : ~ d == 0 -> ~ num_or x d == 0.
Proof.
  unfold num_or. destruct (Qeq_bool x 0) eqn:E; [auto|].
  intros _. now apply Qeq_bool_neq.
Qed.

(** The pattern setter of src/models/camera.ts: a missing or zero column
    count, row count or square size leaves the current value in place, so
    a pattern that has columns, rows and a size never loses them; applying
    the same configuration twice changes nothing more; the grid is rebuilt
    for the resulting pattern and the samples are left alone. *)
Theorem block_config_setter (c : Camera.t) (config : Camera.BlockConfig) :
  let c' := Camera.set_blockConfig c config in
  Camera.set_blockConfig c' config = c' /\
  (Camera.cfg_colNum config = None \/ Camera.cfg_colNum config = Some 0%nat ->
   Camera.colNum c' = Camera.colNum c) /\
  (Camera.cfg_rowNum config = None \/ Camera.cfg_rowNum config = Some 0%nat ->
   Camera.rowNum c' = Camera.rowNum c) /\
  (Camera.cfg_squareSize config == 0 ->
   Camera.squareSize c' = Camera.squareSize c) /\
  (Camera.colNum c <> 0%nat -> Camera.colNum c' <> 0%nat) /\
  (Camera.rowNum c <> 0%nat -> Camera.rowNum c' <> 0%nat) /\
  (~ Camera.squareSize c == 0 -> ~ Camera.squareSize c' == 0) /\
  Camera.objp c'
  = prepareObjectPoints (Camera.colNum c') (Camera.rowNum c')
      (Camera.squareSize c') /\
  length (Camera.objp c') = (Camera.rowNum c' * Camera.colNum c')%nat /\
  Camera.objectPoints c' = Camera.objectPoints c /\
  Camera.imagePoints c' = Camera.imagePoints c /\
  Camera.anglesHist c' = Camera.anglesHist c.
Proof.
  cbv zeta. unfold Camera.set_blockConfig. simpl.
  split; [|split; [|split; [|split; [|split; [|split; [|split; [|split;
    [|split; [|split; [|split]]]]]]]]]]; try reflexivity.
  - rewrite !opt_nat_or_idem, !num_or_idem. reflexivity.
  - intros [-> | ->]; reflexivity.
  - intros [-> | ->]; reflexivity.
  - intro Hz. apply Qeq_bool_iff in Hz. unfold num_or. now rewrite Hz.
  - apply opt_nat_or_pos.
  - apply opt_nat_or_pos.
  - apply num_or_nonzero.
  - apply objRows_length.
Qed.

Lemma block_config_setter_witness :
  Camera.colNum
    (Camera.set_blockConfig Scenario.camera
       (Camera.mkBlockConfig (Some 0%nat) (Some 9%nat) 0))
  = 6%nat.
Proof.
  exact (proj1 (proj2
    (block_config_setter Scenario.camera
       (Camera.mkBlockConfig (Some 0%nat) (Some 9%nat) 0)))
    (or_intror eq_refl)).
Defined.

(** ** The later camera model: errors and invariants *)

Lemma calib_draw_keeps (c : CalibCamera.t) (k : CalibCamera.Tick) :
  let c' := fst (CalibCamera.draw c k) in
  CalibCamera.colNum c' = CalibCamera.colNum c /\
  CalibCamera.rowNum c' = CalibCamera.rowNum c /\
  CalibCamera.squareSize c' = CalibCamera.squareSize c /\
  CalibCamera.objMat c' = CalibCamera.objMat c /\
  CalibCamera.anglesHist c' = CalibCamera.anglesHist c /\
  Utils.trig_interval (CalibCamera.trigger c')
  = Utils.trig_interval (CalibCamera.trigger c).
Proof.
  cbv zeta. unfold CalibCamera.draw.
  destruct ((CalibCamera.videoHeight k =? 0)%nat
            || (CalibCamera.videoWidth k =? 0)%nat); [now repeat split|].
  pose proof (call_interval (CalibCamera.trigger c) (CalibCamera.now k)) as Hiv.
  destruct (Utils.call (CalibCamera.trigger c) (CalibCamera.now k))
    as [fire trigger'].
  simpl in Hiv.
  destruct fire; simpl; [|now repeat split].
  destruct (CalibCamera.corners k); [|now repeat split].
  destruct (CalibCamera.objMat c) eqn:E; simpl; now repeat split.
Qed.

Lemma calib_draw_outcome (c : CalibCamera.t) (k : CalibCamera.Tick) :
  (snd (CalibCamera.draw c k) = CalibCamera.TypeError <->
   CalibCamera.objMat c = None /\
   CalibCamera.videoHeight k <> 0%nat /\ CalibCamera.videoWidth k <> 0%nat /\
   fst (Utils.call (CalibCamera.trigger c) (CalibCamera.now k)) = true /\
   CalibCamera.corners k <> None) /\
  (snd (CalibCamera.draw c k) = CalibCamera.TypeError ->
   CalibCamera.objpointsMat (fst (CalibCamera.draw c k))
   = CalibCamera.objpointsMat c /\
   CalibCamera.imgpointsMat (fst (CalibCamera.draw c k))
   = CalibCamera.imgpointsMat c /\
   Utils.lastTime (CalibCamera.trigger (fst (CalibCamera.draw c k)))
   = CalibCamera.now k).
Proof.
  unfold CalibCamera.draw.
  destruct (Nat.eqb_spec (CalibCamera.videoHeight k) 0) as [Hh|Hh]; simpl.
  { split; [split; [discriminate | intros (_ & E & _); contradiction]
           | discriminate]. }
  destruct (Nat.eqb_spec (CalibCamera.videoWidth k) 0) as [Hw|Hw]; simpl.
  { split; [split; [discriminate | intros (_ & _ & E & _); contradiction]
           | discriminate]. }
  destruct (Utils.call (CalibCamera.trigger c) (CalibCamera.now k))
    as [fire trigger'] eqn:Ecall.
  destruct fire; simpl.
  2:{ split; [split; [discriminate | intros (_ & _ & _ & E & _); discriminate]
             | discriminate]. }
  assert (Hlast : Utils.lastTime trigger' = CalibCamera.now k).
  { assert (Hf : fst (Utils.call (CalibCamera.trigger c) (CalibCamera.now k))
                 = true) by now rewrite Ecall.
    destruct (call_fired _ _ Hf) as [_ Ht]. rewrite Ecall in Ht. simpl in Ht.
    now rewrite Ht. }
  destruct (CalibCamera.corners k) as [cs|]; simpl.
  2:{ split; [split; [discriminate | intros (_ & _ & _ & _ & E); now elim E]
             | discriminate]. }
  destruct (CalibCamera.objMat c) as [om|]; simpl.
  - split; [split|].
    + match goal with |- context [if ?b then _ else _] => destruct b end;
        intro E; discriminate E.
    + intros (E & _); discriminate.
    + match goal with |- context [if ?b then _ else _] => destruct b end;
        intro E; discriminate E.
  - split; [split|].
    + intros _. repeat split; try assumption. discriminate.
    + reflexivity.
    + intros _. repeat split. exact Hlast.
Qed.

Lemma initialised_objMat (c : CalibCamera.t) :
  CalibSession.initialised c -> CalibCamera.objMat c <> None.
Proof.
  induction 1 as [c b _ | c a _ IH].
  - discriminate.
  - destruct a as [b | config | k]; simpl; try discriminate.
    destruct (calib_draw_keeps c k) as (_ & _ & _ & -> & _). exact IH.
Qed.

(** ** The storing step and the size of a sample *)




(** [draw] of the later model throws exactly on a tick that would store a
    sample while the pattern matrix is still missing, that is, before
    [init] or the pattern setter has run; such a call stores nothing but
    has already used up the gate.  Once [init] has run no call of [draw]
    throws. *)
Theorem draw_throws_only_before_init
  (c : CalibCamera.t) (k : CalibCamera.Tick) :
  (snd (CalibCamera.draw c k) = CalibCamera.TypeError <->
   CalibCamera.objMat c = None /\
   CalibCamera.videoHeight k <> 0%nat /\ CalibCamera.videoWidth k <> 0%nat /\
   fst (Utils.call (CalibCamera.trigger c) (CalibCamera.now k)) = true /\
   CalibCamera.corners k <> None) /\
  (snd (CalibCamera.draw c k) = CalibCamera.TypeError ->
   CalibCamera.objpointsMat (fst (CalibCamera.draw c k))
   = CalibCamera.objpointsMat c /\
   CalibCamera.imgpointsMat (fst (CalibCamera.draw c k))
   = CalibCamera.imgpointsMat c /\
   Utils.lastTime (CalibCamera.trigger (fst (CalibCamera.draw c k)))
   = CalibCamera.now k) /\
  (CalibSession.initialised c ->
   snd (CalibCamera.draw c k) <> CalibCamera.TypeError).
Proof.
  destruct (calib_draw_outcome c k) as [Hiff Hstate].
  split; [exact Hiff | split; [exact Hstate|]].
  intros Hinit Hthrow. apply Hiff in Hthrow.
  destruct Hthrow as (Hnone & _). exact (initialised_objMat c Hinit Hnone).
Qed.

Lemma draw_throws_only_before_init_witness :
  snd (CalibCamera.draw
         (CalibCamera.constructor (CalibCamera.mkCameraConfig None))
         (CalibCamera.mkTick 640 480 100 (Some (repeat 0 72))))
  = CalibCamera.TypeError /\
  snd (CalibCamera.draw
         (CalibSession.init
            (CalibCamera.constructor (CalibCamera.mkCameraConfig None)) None)
         (CalibCamera.mkTick 640 480 100 (Some (repeat 0 72))))
  <> CalibCamera.TypeError.
Proof.
  split.
  - apply (proj1 (draw_throws_only_before_init _ _)).
    repeat split; discriminate.
  - apply (proj2 (proj2 (draw_throws_only_before_init _ _))).
    apply CalibSession.init_done. apply CalibSession.reach_constructor.
Defined.

Lemma calib_invariant (c : CalibCamera.t) :
  CalibSession.reachable c ->
  (forall m, CalibCamera.objMat c = Some m ->
     m = CalibCamera.matFromArray
           (CalibCamera.colNum c * CalibCamera.rowNum c) 3
           (concat (prepareObjectPoints (CalibCamera.colNum c)
                      (CalibCamera.rowNum c) (CalibCamera.squareSize c)))) /\
  Forall2 CalibSession.aligned
    (CalibCamera.objpointsMat c) (CalibCamera.imgpointsMat c) /\
  CalibCamera.colNum c <> 0%nat /\ CalibCamera.rowNum c <> 0%nat /\
  ~ CalibCamera.squareSize c == 0.
Proof.
  assert (Hset : forall c b,
    (Forall2 CalibSession.aligned
       (CalibCamera.objpointsMat c) (CalibCamera.imgpointsMat c) /\
     CalibCamera.colNum c <> 0%nat /\ CalibCamera.rowNum c <> 0%nat /\
     ~ CalibCamera.squareSize c == 0) ->
    (forall m, CalibCamera.objMat (CalibCamera.set_blockConfig c b) = Some m ->
       m = CalibCamera.matFromArray
             (CalibCamera.colNum (CalibCamera.set_blockConfig c b)
              * CalibCamera.rowNum (CalibCamera.set_blockConfig c b)) 3
             (concat (prepareObjectPoints
                        (CalibCamera.colNum (CalibCamera.set_blockConfig c b))
                        (CalibCamera.rowNum (CalibCamera.set_blockConfig c b))
                        (CalibCamera.squareSize
                           (CalibCamera.set_blockConfig c b))))) /\
    Forall2 CalibSession.aligned
      (CalibCamera.objpointsMat (CalibCamera.set_blockConfig c b))
      (CalibCamera.imgpointsMat (CalibCamera.set_blockConfig c b)) /\
    CalibCamera.colNum (CalibCamera.set_blockConfig c b) <> 0%nat /\
    CalibCamera.rowNum (CalibCamera.set_blockConfig c b) <> 0%nat /\
    ~ CalibCamera.squareSize (CalibCamera.set_blockConfig c b) == 0).
  { intros c0 b (Hal & Hc0 & Hr0 & Hs0). unfold CalibCamera.set_blockConfig.
    simpl. split; [|split; [|split; [|split]]].
    - intros m [= <-]. reflexivity.
    - exact Hal.
    - now apply opt_nat_or_pos.
    - now apply opt_nat_or_pos.
    - now apply num_or_nonzero. }
  induction 1 as [config | c a _ (Hm & Hal & Hc & Hr & Hs)].
  - simpl. split; [intros m [=]|]. split; [constructor|].
    split; [discriminate|]. split; [discriminate|].
    intro Hz. vm_compute in Hz. discriminate Hz.
  - destruct a as [b | config | k].
    + apply Hset. auto.
    + apply Hset. auto.
    + simpl.
      destruct (calib_draw_keeps c k) as (Ec & Er & Es & Em & _).
      rewrite Ec, Er, Es, Em.
      split; [exact Hm|]. split; [|auto].
      destruct (calib_draw_cases c k)
        as [(Ho & Hi & _) | (cs & om & _ & _ & _ & _ & Hom & Ho & Hi & _)];
        rewrite Ho, Hi; [exact Hal|].
      apply Forall2_app; [exact Hal|]. constructor; [|constructor].
      rewrite (Hm om Hom). unfold CalibSession.aligned. simpl.
      repeat split.
      rewrite concat_length_3 by apply objRows_shape.
      unfold prepareObjectPoints. rewrite objRows_length.
      rewrite (Nat.mul_comm (CalibCamera.rowNum c)). reflexivity.
Qed.

(** In every camera of the later model met after construction, the
    pattern has columns, rows and a square size (none is 0); the pattern
    matrix, once set, is the grid of the current pattern, exactly filled;
    and the stored object-point and image-point matrices go in pairs with
    the same number of rows, the object one being a filled grid. *)
Theorem stored_pairs_are_aligned (c : CalibCamera.t)
  (Hc : CalibSession.reachable c) :
  (CalibCamera.colNum c <> 0%nat /\ CalibCamera.rowNum c <> 0%nat /\
   ~ CalibCamera.squareSize c == 0) /\
  (forall m, CalibCamera.objMat c = Some m ->
     CalibCamera.rows m = (CalibCamera.colNum c * CalibCamera.rowNum c)%nat /\
     CalibCamera.cols m = 3%nat /\
     CalibCamera.data m
     = concat (prepareObjectPoints (CalibCamera.colNum c)
                 (CalibCamera.rowNum c) (CalibCamera.squareSize c)) /\
     length (CalibCamera.data m)
     = (CalibCamera.rows m * CalibCamera.cols m)%nat) /\
  Forall2 CalibSession.aligned
    (CalibCamera.objpointsMat c) (CalibCamera.imgpointsMat c) /\
  length (CalibCamera.objpointsMat c) = length (CalibCamera.imgpointsMat c).
Proof.
  destruct (calib_invariant c Hc) as (Hm & Hal & Hcol & Hrow & Hsq).
  split; [auto|]. split; [|split; [exact Hal|]].
  - intros m Hsome. rewrite (Hm m Hsome). simpl. repeat split.
    rewrite concat_length_3 by apply objRows_shape.
    unfold prepareObjectPoints. rewrite objRows_length.
    rewrite (Nat.mul_comm (CalibCamera.rowNum c)). reflexivity.
  - exact (Forall2_length Hal).
Qed.

Lemma stored_pairs_are_aligned_witness :
  let c := CalibSession.step
             (CalibSession.step
                (CalibCamera.constructor (CalibCamera.mkCameraConfig None))
                (CalibSession.Init None))
             (CalibSession.Draw
                (CalibCamera.mkTick 640 480 100 (Some (repeat 0 140)))) in
  length (CalibCamera.objpointsMat c) = 1%nat /\
  Forall2 CalibSession.aligned
    (CalibCamera.objpointsMat c) (CalibCamera.imgpointsMat c).
Proof.
  intro c. split; [reflexivity|].
  apply (stored_pairs_are_aligned c).
  repeat apply CalibSession.reach_step. apply CalibSession.reach_constructor.
Defined.

Lemma calib_draw_events (c : CalibCamera.t) (k : CalibCamera.Tick)
  (evs : list CalibCamera.Event) :
  snd (CalibCamera.draw c k) = CalibCamera.Returned evs ->
  evs = [] \/
  (evs = [CalibCamera.Calibrate
            (CalibCamera.objpointsMat (fst (CalibCamera.draw c k)))
            (CalibCamera.imgpointsMat (fst (CalibCamera.draw c k)))
            (CalibCamera.videoWidth k, CalibCamera.videoHeight k)] /\
   (15 <= length (CalibCamera.objpointsMat (fst (CalibCamera.draw c k))))%nat).
Proof.
  unfold CalibCamera.draw.
  destruct ((CalibCamera.videoHeight k =? 0)%nat
            || (CalibCamera.videoWidth k =? 0)%nat);
    [intros [= <-]; now left|].
  destruct (Utils.call (CalibCamera.trigger c) (CalibCamera.now k))
    as [fire trigger'].
  destruct fire; cbn [negb]; cbv iota; [|intros [= <-]; now left].
  destruct (CalibCamera.corners k) as [cs|]; [|intros [= <-]; now left].
  destruct (CalibCamera.objMat c) as [om|]; [|discriminate].
  cbv zeta. cbn [fst snd CalibCamera.objpointsMat CalibCamera.imgpointsMat].
  destruct (Nat.leb_spec 15 (length (CalibCamera.objpointsMat c ++ [om])))
    as [Hn|Hn]; intros [= <-]; [right | now left].
  split; [reflexivity | exact Hn].
Qed.

(** Whenever a call of [draw] on a camera met after construction returns,
    it has called the solver at most once, and a call it made was given
    at least 15 object-point sets and exactly as many image-point sets:
    the camera's lists as they are after this call, with the size of the
    frame. *)
Theorem solver_is_well_fed
  (c : CalibCamera.t) (k : CalibCamera.Tick) (evs : list CalibCamera.Event)
  (Hc : CalibSession.reachable c)
  (Hret : snd (CalibCamera.draw c k) = CalibCamera.Returned evs) :
  (length evs <= 1)%nat /\ Forall CalibSession.wellFed evs /\
  forall o i size, In (CalibCamera.Calibrate o i size) evs ->
    o = CalibCamera.objpointsMat (fst (CalibCamera.draw c k)) /\
    i = CalibCamera.imgpointsMat (fst (CalibCamera.draw c k)) /\
    size = (CalibCamera.videoWidth k, CalibCamera.videoHeight k).
Proof.
  assert (Hc' : CalibSession.reachable (fst (CalibCamera.draw c k)))
    by exact (CalibSession.reach_step c (CalibSession.Draw k) Hc).
  destruct (calib_invariant _ Hc') as (_ & Hal & _).
  apply Forall2_length in Hal.
  destruct (calib_draw_events c k evs Hret) as [-> | (-> & Hn)].
  - split; [simpl; lia|]. split; [constructor|]. intros o i size [].
  - split; [simpl; lia|]. split.
    + constructor; [|constructor]. simpl. split; [exact Hn | exact Hal].
    + intros o i size [[= <- <- <-] | []]. now repeat split.
Qed.

Lemma solver_is_well_fed_witness :
  let tick n := CalibCamera.mkTick 640 480 (inject_Z (Z.of_nat n) * 100)
                  (Some (repeat 0 140)) in
  let c := fold_left (fun c n => CalibSession.step c (CalibSession.Draw (tick n)))
             (seq 1 14)
             (CalibSession.step
                (CalibCamera.constructor (CalibCamera.mkCameraConfig None))
                (CalibSession.Init None)) in
  let evs := match snd (CalibCamera.draw c (tick 15%nat)) with
             | CalibCamera.Returned evs => evs
             | CalibCamera.TypeError => []
             end in
  length evs = 1%nat /\ Forall CalibSession.wellFed evs.
Proof.
  intros tick c evs. split; [vm_compute; reflexivity|].
  refine (proj1 (proj2 (solver_is_well_fed c (tick 15%nat) evs _ _))).
  - unfold c. cbn [fold_left seq].
    repeat apply CalibSession.reach_step. apply CalibSession.reach_constructor.
  - vm_compute. reflexivity.
Defined.

(** ** The pace of a session *)

Lemma calib_draw_trigger (c : CalibCamera.t) (k : CalibCamera.Tick) :
  (CalibCamera.trigger (fst (CalibCamera.draw c k)) = CalibCamera.trigger c /\
   CalibCamera.stores c k = false) \/
  (fst (Utils.call (CalibCamera.trigger c) (CalibCamera.now k)) = true /\
   CalibCamera.trigger (fst (CalibCamera.draw c k))
   = Utils.mkTrigger (Utils.trig_interval (CalibCamera.trigger c))
       (CalibCamera.now k)).
Proof.
  destruct (CalibCamera.stores c k) eqn:Est.
  - right. apply calib_stores_iff in Est.
    destruct Est as (Hh & Hw & Hf & Hc & Hm). split; [exact Hf|].
    unfold CalibCamera.draw.
    destruct (Nat.eqb_spec (CalibCamera.videoHeight k) 0); [contradiction|].
    destruct (Nat.eqb_spec (CalibCamera.videoWidth k) 0); [contradiction|].
    simpl orb. cbv iota.
    destruct (call_fired _ _ Hf) as [_ Ht].
    destruct (Utils.call (CalibCamera.trigger c) (CalibCamera.now k))
      as [fire trigger']. simpl in Hf, Ht. subst fire trigger'. simpl.
    destruct (CalibCamera.corners k); [|now elim Hc].
    destruct (CalibCamera.objMat c); [reflexivity | now elim Hm].
  - unfold CalibCamera.draw.
    destruct ((CalibCamera.videoHeight k =? 0)%nat
              || (CalibCamera.videoWidth k =? 0)%nat); [left; now split|].
    destruct (fst (Utils.call (CalibCamera.trigger c) (CalibCamera.now k)))
      eqn:Hf.
    + right. split; [reflexivity|].
      destruct (call_fired _ _ Hf) as [_ Ht].
      destruct (Utils.call (CalibCamera.trigger c) (CalibCamera.now k))
        as [fire trigger']. simpl in Hf, Ht. subst fire trigger'. simpl.
      destruct (CalibCamera.corners k); [|reflexivity].
      destruct (CalibCamera.objMat c); reflexivity.
    + left. split; [|reflexivity].
      destruct (Utils.call (CalibCamera.trigger c) (CalibCamera.now k))
        as [fire trigger']. simpl in Hf. subst fire. reflexivity.
Qed.

Lemma stored_after_last (ks : list CalibCamera.Tick) (c : CalibCamera.t)
  (j : nat) (kj : CalibCamera.Tick) :
  StronglySorted (fun a b => CalibCamera.now a <= CalibCamera.now b) ks ->
  (forall k, In k ks ->
     Utils.lastTime (CalibCamera.trigger c) <= CalibCamera.now k) ->
  nth_error ks j = Some kj ->
  nth_error (CalibSession.stored c ks) j = Some true ->
  Utils.reaches (Utils.trig_interval (CalibCamera.trigger c))
    (CalibCamera.now kj - Utils.lastTime (CalibCamera.trigger c)) = true.
Proof.
  revert c j. induction ks as [|x xs IH]; intros c j Hs Hlow Hj Hst.
  - destruct j; discriminate Hj.
  - apply StronglySorted_inv in Hs. destruct Hs as [Hs Hx].
    rewrite Forall_forall in Hx.
    destruct j as [|j]; simpl in Hj, Hst.
    + injection Hj as <-. injection Hst as Hst.
      apply calib_stores_iff in Hst. destruct Hst as (_ & _ & Hf & _).
      now apply call_fired in Hf.
    + specialize (IH (fst (CalibCamera.draw c x)) j Hs).
      destruct (calib_draw_trigger c x) as [[Ht _] | [Hf Ht]];
        rewrite Ht in IH.
      * apply IH; try assumption. intros y Hy. apply Hlow. now right.
      * simpl in IH. specialize (IH Hx Hj Hst).
        apply reaches_iff in IH. destruct IH as (iv & Hiv & Hle).
        apply reaches_iff. exists iv. split; [exact Hiv|].
        pose proof (Hlow x (or_introl eq_refl)). lra.
Qed.

Lemma stored_spacing (ks : list CalibCamera.Tick) (c : CalibCamera.t)
  (i j : nat) (ki kj : CalibCamera.Tick) :
  StronglySorted (fun a b => CalibCamera.now a <= CalibCamera.now b) ks ->
  (i < j)%nat ->
  nth_error ks i = Some ki -> nth_error ks j = Some kj ->
  nth_error (CalibSession.stored c ks) i = Some true ->
  nth_error (CalibSession.stored c ks) j = Some true ->
  Utils.reaches (Utils.trig_interval (CalibCamera.trigger c))
    (CalibCamera.now kj - CalibCamera.now ki) = true.
Proof.
  revert c i j. induction ks as [|x xs IH]; intros c i j Hs Hij Hi Hj Hsi Hsj.
  - destruct i; discriminate Hi.
  - apply StronglySorted_inv in Hs. destruct Hs as [Hs Hx].
    rewrite Forall_forall in Hx.
    destruct j as [|j]; [lia|]. simpl in Hj, Hsj.
    destruct i as [|i]; simpl in Hi, Hsi.
    + injection Hi as ->. injection Hsi as Hsi.
      destruct (calib_draw_trigger c ki) as [[_ Hno] | [_ Ht]]; [congruence|].
      pose proof (stored_after_last xs (fst (CalibCamera.draw c ki)) j kj
                    Hs) as Hafter.
      rewrite Ht in Hafter. simpl in Hafter. now apply Hafter.
    + destruct (calib_draw_keeps c x) as (_ & _ & _ & _ & _ & Hiv).
      rewrite <- Hiv.
      apply (IH (fst (CalibCamera.draw c x)) i j); try assumption. lia.
Qed.

Lemma calib_gate_interval (c : CalibCamera.t) :
  CalibSession.reachable c ->
  Utils.trig_interval (CalibCamera.trigger c)
  = Some (1000 / CalibCamera.fps c).
Proof.
  induction 1 as [config | c a _ IH].
  - simpl. unfold Utils.interval.
    destruct (Qeq_bool (opt_num_or (CalibCamera.cfg_fps config) 10) 0) eqn:E;
      [|reflexivity].
    exfalso. apply Qeq_bool_iff in E. revert E.
    destruct (CalibCamera.cfg_fps config) as [v|]; simpl.
    + apply num_or_nonzero. intro Hz. vm_compute in Hz. discriminate Hz.
    + intro Hz. vm_compute in Hz. discriminate Hz.
  - destruct a as [b | config | k]; simpl; try exact IH.
    destruct (calib_draw_keeps c k) as (_ & _ & _ & _ & _ & ->).
    assert (Hfps : CalibCamera.fps (fst (CalibCamera.draw c k))
                   = CalibCamera.fps c).
    { unfold CalibCamera.draw.
      destruct ((CalibCamera.videoHeight k =? 0)%nat
                || (CalibCamera.videoWidth k =? 0)%nat); [reflexivity|].
      destruct (Utils.call (CalibCamera.trigger c) (CalibCamera.now k))
        as [fire trigger'].
      destruct fire; simpl; [|reflexivity].
      destruct (CalibCamera.corners k); [|reflexivity].
      destruct (CalibCamera.objMat c); reflexivity. }
    rewrite Hfps. exact IH.
Qed.

(** In a session of the later model whose clock never runs backwards,
    two calls of [draw] that both store a sample are at least 1000/fps ms
    apart: samples are stored at most at the frame rate. *)
Theorem stored_samples_are_spaced
  (c : CalibCamera.t) (ks : list CalibCamera.Tick) (i j : nat)
  (ki kj : CalibCamera.Tick)
  (Hc : CalibSession.reachable c)
  (Hclock : Sorted (fun a b => CalibCamera.now a <= CalibCamera.now b) ks)
  (Hij : (i < j)%nat)
  (Hi : nth_error ks i = Some ki) (Hj : nth_error ks j = Some kj)
  (Hsi : nth_error (CalibSession.stored c ks) i = Some true)
  (Hsj : nth_error (CalibSession.stored c ks) j = Some true) :
  1000 / CalibCamera.fps c <= CalibCamera.now kj - CalibCamera.now ki.
Proof.
  assert (Hss : StronglySorted
                  (fun a b => CalibCamera.now a <= CalibCamera.now b) ks).
  { apply Sorted_StronglySorted; [|exact Hclock].
    intros x y z. apply Qle_trans. }
  pose proof (stored_spacing ks c i j ki kj Hss Hij Hi Hj Hsi Hsj) as Hr.
  rewrite (calib_gate_interval c Hc) in Hr.
  apply reaches_iff in Hr. destruct Hr as (iv & [= <-] & Hle). exact Hle.
Qed.

Lemma stored_samples_are_spaced_witness :
  1000 / 10 <= 250 - 100.
Proof.
  refine (stored_samples_are_spaced
            (CalibSession.step
               (CalibCamera.constructor (CalibCamera.mkCameraConfig None))
               (CalibSession.Init None))
            [CalibCamera.mkTick 640 480 100 (Some (repeat 0 140));
             CalibCamera.mkTick 640 480 150 (Some (repeat 0 140));
             CalibCamera.mkTick 640 480 250 (Some (repeat 0 140))]
            0 2
            (CalibCamera.mkTick 640 480 100 (Some (repeat 0 140)))
            (CalibCamera.mkTick 640 480 250 (Some (repeat 0 140)))
            _ _ _ eq_refl eq_refl eq_refl eq_refl).
  - apply CalibSession.reach_step. apply CalibSession.reach_constructor.
  - repeat constructor; unfold Qle; simpl; lia.
  - lia.
Defined.

(** ** More on the frame-rate gate *)

Lemma calls_shut (t : Utils.Trigger) (iv : Q) (nows : list Q) :
  Utils.trig_interval t = Some iv ->
  Forall (fun now => now - Utils.lastTime t < iv) nows ->
  Utils.calls t nows = repeat false (length nows).
Proof.
  intros Hiv. induction 1 as [|now nows Hnow _ IH]; simpl; [reflexivity|].
  assert (Hr : Utils.reaches (Utils.trig_interval t) (now - Utils.lastTime t)
               = false).
  { destruct (Utils.reaches _ _) eqn:E; [|reflexivity].
    apply reaches_iff in E. destruct E as (i & Hi & Hle).
    rewrite Hiv in Hi. injection Hi as <-.
    exfalso. exact (Qlt_not_le _ _ Hnow Hle). }
  unfold Utils.call. rewrite Hr. simpl. now rewrite IH.
Qed.

(** A fresh gate of a positive rate stays shut during its first interval:
    calls made before 1000/fps ms on the clock all answer false, however
    many they are. *)
Theorem gate_shut_during_first_interval (fps : Q) (nows : list Q)
  (Hfps : 0 < fps)
  (Hearly : Forall (fun now => now < 1000 / fps) nows) :
  Utils.calls (Utils.createTrigger fps) nows = repeat false (length nows).
Proof.
  apply (calls_shut _ (1000 / fps)).
  - simpl. unfold Utils.interval.
    destruct (Qeq_bool fps 0) eqn:E; [|reflexivity].
    apply Qeq_bool_iff in E. rewrite E in Hfps. discriminate Hfps.
  - simpl. eapply Forall_impl; [|exact Hearly].
    intros now Hnow. simpl in Hnow. lra.
Qed.

Lemma gate_shut_during_first_interval_witness :
  Utils.calls (Utils.createTrigger 10) [0; 16; 33; 99]
  = repeat false 4.
Proof.
  apply (gate_shut_during_first_interval 10 [0; 16; 33; 99]).
  - reflexivity.
  - repeat constructor.
Defined.

Lemma calls_open (t : Utils.Trigger) (iv : Q) (nows : list Q) :
  Utils.trig_interval t = Some iv -> iv <= 0 ->
  StronglySorted Qle nows ->
  Forall (fun now => Utils.lastTime t <= now) nows ->
  Utils.calls t nows = repeat true (length nows).
Proof.
  intros Hiv Hneg Hs. revert t Hiv.
  induction Hs as [|now nows Hs IH Hnow]; intros t Hiv Hlow; simpl;
    [reflexivity|].
  apply Forall_inv in Hlow as Hn.
  assert (Hr : Utils.reaches (Utils.trig_interval t) (now - Utils.lastTime t)
               = true).
  { apply reaches_iff. exists iv. split; [exact Hiv | lra]. }
  unfold Utils.call. rewrite Hr. simpl. f_equal.
  apply IH; [exact Hiv | exact Hnow].
Qed.

(** A gate made from a negative rate does not throttle: on a clock that
    starts at 0 or later and never runs backwards, every call answers
    true. *)
Theorem negative_rate_never_throttles (fps : Q) (nows : list Q)
  (Hfps : fps < 0)
  (Hclock : Sorted Qle nows)
  (Hpos : Forall (fun now => 0 <= now) nows) :
  Utils.calls (Utils.createTrigger fps) nows = repeat true (length nows).
Proof.
  apply (calls_open _ (1000 / fps)).
  - simpl. unfold Utils.interval.
    destruct (Qeq_bool fps 0) eqn:E; [|reflexivity].
    apply Qeq_bool_iff in E. rewrite E in Hfps. discriminate Hfps.
  - assert (Hinv : / fps < 0).
    { apply Qnot_le_lt. intro Hge.
      assert (Hone : / fps * fps == 1)
        by (rewrite Qmult_comm; apply Qmult_inv_r; lra).
      nra. }
    unfold Qdiv. nra.
  - apply Sorted_StronglySorted; [|exact Hclock].
    intros x y z. apply Qle_trans.
  - exact Hpos.
Qed.

Lemma negative_rate_never_throttles_witness :
  Utils.calls (Utils.createTrigger (-5)) [0; 1; 1; 17]
  = repeat true 4.
Proof.
  apply (negative_rate_never_throttles (-5) [0; 1; 1; 17]).
  - reflexivity.
  - repeat constructor; unfold Qle; simpl; lia.
  - repeat constructor; unfold Qle; simpl; lia.
Defined.

(** ** The gate written inside [draw] and the gate of utils *)

Lemma belowInterval_reaches (fps d : Q) :
  ThrottledCamera.belowInterval fps d
  = negb (Utils.reaches (Utils.interval fps) d).
Proof.
  unfold ThrottledCamera.belowInterval, Utils.interval.
  destruct (Qeq_bool fps 0); reflexivity.
Qed.

Lemma calib_draw_gate (c : CalibCamera.t) (k : CalibCamera.Tick) :
  CalibCamera.trigger (fst (CalibCamera.draw c k))
  = if CalibSession.gatePass c k
    then snd (Utils.call (CalibCamera.trigger c) (CalibCamera.now k))
    else CalibCamera.trigger c.
Proof.
  unfold CalibSession.gatePass, CalibCamera.draw.
  destruct ((CalibCamera.videoHeight k =? 0)%nat
            || (CalibCamera.videoWidth k =? 0)%nat); [reflexivity|].
  destruct (Utils.call (CalibCamera.trigger c) (CalibCamera.now k))
    as [fire trigger'].
  destruct fire; simpl; [|reflexivity].
  destruct (CalibCamera.corners k); [|reflexivity].
  destruct (CalibCamera.objMat c); reflexivity.
Qed.

Lemma gates_step (c2 : ThrottledCamera.t) (c3 : CalibCamera.t)
  (k : CalibCamera.Tick) :
  CalibCamera.trigger c3
  = Utils.mkTrigger (Utils.interval (ThrottledCamera.fps c2))
      (ThrottledCamera.lastDrawTime c2) ->
  let r := ThrottledCamera.draw c2 (CalibCamera.videoWidth k)
             (CalibCamera.videoHeight k) (CalibCamera.now k) in
  snd r = CalibSession.gatePass c3 k /\
  CalibCamera.trigger (fst (CalibCamera.draw c3 k))
  = Utils.mkTrigger (Utils.interval (ThrottledCamera.fps (fst r)))
      (ThrottledCamera.lastDrawTime (fst r)).
Proof.
  intro HR. cbv zeta. rewrite calib_draw_gate.
  unfold CalibSession.gatePass, ThrottledCamera.draw.
  destruct ((CalibCamera.videoHeight k =? 0)%nat
            || (CalibCamera.videoWidth k =? 0)%nat); simpl;
    [split; [reflexivity | exact HR]|].
  rewrite belowInterval_reaches. rewrite HR. unfold Utils.call. simpl.
  destruct (Utils.reaches (Utils.interval (ThrottledCamera.fps c2))
              (CalibCamera.now k - ThrottledCamera.lastDrawTime c2));
    simpl; split; reflexivity.
Qed.

(** The intermediate camera model, which tests
    [now - lastDrawTime < 1000 / fps] inside [draw], and the later one,
    which asks the gate of utils, let the same calls through: built with
    the same fps and driven by the same ticks, a call of [draw] goes past
    the early returns in one exactly when it does in the other. *)
Theorem inline_gate_agrees_with_trigger
  (config_fps : Q) (ks : list CalibCamera.Tick) :
  ThrottledCamera.passes (ThrottledCamera.constructor config_fps) ks
  = CalibSession.passes
      (CalibCamera.constructor (CalibCamera.mkCameraConfig (Some config_fps)))
      ks.
Proof.
  assert (Hgen : forall c2 c3,
    CalibCamera.trigger c3
    = Utils.mkTrigger (Utils.interval (ThrottledCamera.fps c2))
        (ThrottledCamera.lastDrawTime c2) ->
    ThrottledCamera.passes c2 ks = CalibSession.passes c3 ks).
  { induction ks as [|k ks IH]; intros c2 c3 HR; [reflexivity|].
    destruct (gates_step c2 c3 k HR) as [Hpass HR'].
    simpl. rewrite Hpass. f_equal. now apply IH. }
  apply Hgen. reflexivity.
Qed.

(** ** The capture loop of the hook *)

Lemma hook_turns_from_start (objp : list (list Q))
  (frames : list (option (option Detection))) (s : Hook.t) :
  Hook.anglesHist s = [] -> Hook.captured s = 0%nat ->
  Hook.objectPoints s = [] -> Hook.imagePoints s = [] ->
  Hook.anglesHistory s = [] ->
  let s' := fold_left (Hook.turn objp) frames s in
  Hook.anglesHist s' = [] /\ Hook.captured s' = 0%nat /\
  Hook.objectPoints s' = [] /\ Hook.imagePoints s' = [] /\
  Hook.anglesHistory s' = [] /\
  Hook.guidance s'
  = if existsb (fun f => match f with Some (Some _) => true | _ => false end)
         frames
    then Some msgVertical else Hook.guidance s.
Proof.
  revert s. induction frames as [|f frames IH]; intros s Ha Hc Ho Hi Hy.
  - simpl. repeat split; assumption.
  - cbv zeta. cbn [fold_left existsb].
    destruct f as [[d|]|]; cbn [orb]; try (apply IH; assumption).
    assert (Ht : Hook.turn objp s (Some (Some d))
                 = Hook.mk (Hook.objectPoints s) (Hook.imagePoints s)
                     (Hook.anglesHist s) (Hook.captured s)
                     (Some msgVertical) (Hook.anglesHistory s)).
    { unfold Hook.turn. rewrite Ha, getGuidance_nil. reflexivity. }
    rewrite Ht.
    specialize (IH (Hook.mk (Hook.objectPoints s) (Hook.imagePoints s)
                      (Hook.anglesHist s) (Hook.captured s)
                      (Some msgVertical) (Hook.anglesHistory s))
                  Ha Hc Ho Hi Hy).
    cbv zeta in IH. destruct IH as (H1 & H2 & H3 & H4 & H5 & H6).
    repeat split; try assumption.
    rewrite H6. simpl. now destruct (existsb _ frames).
Qed.

(** The capture loop of the hook ends at once, with the done message and
    nothing captured, when asked for 0 images, and otherwise never ends.
    While it runs, whatever frames it meets, nothing is captured and the
    only tip it ever shows is the vertical one, from the first frame with
    a board on. *)
Theorem hook_only_shows_vertical
  (fuel n : nat) (capture : nat -> option (option Detection))
  (objp : list (list Q)) (frames : list (option (option Detection))) :
  Hook.captureWithGuidance fuel n capture
  = (if (n =? 0)%nat then Some (Hook.finish Hook.start) else None) /\
  Hook.guidance (Hook.finish Hook.start) = Some Hook.msgDone /\
  let s := fold_left (Hook.turn objp) frames Hook.start in
  Hook.captured s = 0%nat /\ Hook.objectPoints s = [] /\
  Hook.imagePoints s = [] /\ Hook.anglesHistory s = [] /\
  Hook.guidance s
  = if existsb (fun f => match f with Some (Some _) => true | _ => false end)
         frames
    then Some msgVertical else None.
Proof.
  split; [|split; [reflexivity|]].
  - destruct n as [|n].
    + destruct fuel; reflexivity.
    + apply hook_loop_stuck; [lia | reflexivity | reflexivity].
  - destruct (hook_turns_from_start objp frames Hook.start
                eq_refl eq_refl eq_refl eq_refl eq_refl)
      as (_ & H2 & H3 & H4 & H5 & H6).
    cbv zeta. repeat split; assumption.
Qed.

(** ** The tracking error of [calcOpticalFlow] *)

Lemma sumErrors_lost (status : list nat) (err : list nat) (i : nat) :
  (i + length status <= length err)%nat ->
  OpticalFlow.sumErrors status err i OpticalFlow.Infinity
  = OpticalFlow.Infinity.
Proof.
  revert i. induction status as [|s status IH]; intros i Hlen; simpl in *.
  - reflexivity.
  - assert (Hread : exists v, OpticalFlow.read err i = OpticalFlow.Fin v).
    { unfold OpticalFlow.read. destruct (nth_error err i) as [v|] eqn:E.
      - now exists (Z.of_nat v).
      - apply nth_error_None in E. lia. }
    destruct Hread as (v & ->).
    destruct (s =? 1)%nat; simpl; apply IH; lia.
Qed.

Lemma skipn_nth_error (err : list nat) (i v : nat) :
  nth_error err i = Some v -> skipn i err = v :: skipn (S i) err.
Proof.
  revert i. induction err as [|x err IH]; intros [|i] E; try discriminate E.
  - injection E as ->. reflexivity.
  - simpl in E. change (skipn i err = v :: skipn (S i) err). now apply IH.
Qed.

Lemma sumErrors_tracked (status : list nat) (err : list nat) (i : nat)
  (acc : Z) :
  (i + length status <= length err)%nat ->
  OpticalFlow.sumErrors status err i (OpticalFlow.Fin acc)
  = if forallb (fun s => (s =? 1)%nat) status
    then OpticalFlow.Fin
           (acc + Z.of_nat (list_sum (firstn (length status) (skipn i err))))
    else OpticalFlow.Infinity.
Proof.
  revert i acc. induction status as [|s status IH]; intros i acc Hlen;
    simpl in *.
  - f_equal. lia.
  - destruct (s =? 1)%nat; simpl.
    + unfold OpticalFlow.read.
      destruct (nth_error err i) as [v|] eqn:E.
      * simpl. rewrite IH by lia. rewrite (skipn_nth_error err i v E).
        destruct (forallb (fun s0 => (s0 =? 1)%nat) status); [|reflexivity].
        f_equal. simpl. lia.
      * apply nth_error_None in E. lia.
    + apply sumErrors_lost. lia.
Qed.

(** The error returned by [calcOpticalFlow], the byte view [err.data]
    having at least one byte for each status entry (it has four): when
    every status is 1 it is the sum of the first [status.rows] BYTES of
    [err.data], and so does not depend on the bytes that follow; it is
    Infinity exactly when some status is not 1. *)
Theorem tracking_error_finite_iff_all_tracked
  (status : list nat) (err : list nat)
  (Hlen : (length status <= length err)%nat) :
  OpticalFlow.trackingError status err
  = (if forallb (fun s => (s =? 1)%nat) status
     then OpticalFlow.Fin (Z.of_nat (list_sum (firstn (length status) err)))
     else OpticalFlow.Infinity) /\
  (OpticalFlow.trackingError status err = OpticalFlow.Infinity <->
   exists s, In s status /\ s <> 1%nat) /\
  (forall rest,
     OpticalFlow.trackingError status
       (firstn (length status) err ++ rest)
     = OpticalFlow.trackingError status err).
Proof.
  assert (Hgen : forall e, (length status <= length e)%nat ->
    OpticalFlow.trackingError status e
    = if forallb (fun s => (s =? 1)%nat) status
      then OpticalFlow.Fin (Z.of_nat (list_sum (firstn (length status) e)))
      else OpticalFlow.Infinity).
  { intros e He. unfold OpticalFlow.trackingError.
    rewrite sumErrors_tracked by (simpl; exact He). reflexivity. }
  pose proof (Hgen err Hlen) as Heq.
  split; [exact Heq|]. split.
  - rewrite Heq.
    destruct (forallb (fun s => (s =? 1)%nat) status) eqn:E.
    + split; [discriminate|]. intros (s & Hin & Hs).
      rewrite forallb_forall in E. apply E in Hin.
      apply Nat.eqb_eq in Hin. contradiction.
    + split; [|reflexivity]. intros _.
      assert (Hex : existsb (fun s => negb (s =? 1)%nat) status = true).
      { clear -E. induction status as [|s status IH]; simpl in *;
          [discriminate|].
        destruct (s =? 1)%nat; simpl in *; [now apply IH | reflexivity]. }
      apply existsb_exists in Hex. destruct Hex as (s & Hin & Hs).
      exists s. split; [exact Hin|].
      apply negb_true_iff, Nat.eqb_neq in Hs. exact Hs.
  - intro rest. rewrite Heq.
    assert (Hfl : length (firstn (length status) err) = length status)
      by (apply firstn_length_le; exact Hlen).
    rewrite Hgen by (rewrite length_app, Hfl; lia).
    rewrite firstn_app, Hfl, Nat.sub_diag, firstn_firstn, Nat.min_id.
    simpl. rewrite app_nil_r. reflexivity.
Qed.

Lemma tracking_error_finite_iff_all_tracked_witness :
  OpticalFlow.trackingError [1; 1; 1]%nat
    [179; 172; 41; 65; 0; 0; 32; 65; 102; 102; 70; 65]%nat
  = OpticalFlow.Fin 392 /\
  OpticalFlow.trackingError [1; 0; 1]%nat
    [179; 172; 41; 65; 0; 0; 32; 65; 102; 102; 70; 65]%nat
  = OpticalFlow.Infinity.
Proof.
  split.
  - apply (proj1 (tracking_error_finite_iff_all_tracked [1; 1; 1]%nat
                    [179; 172; 41; 65; 0; 0; 32; 65; 102; 102; 70; 65]%nat
                    ltac:(simpl; lia))).
  - apply (proj1 (proj2 (tracking_error_finite_iff_all_tracked [1; 0; 1]%nat
                    [179; 172; 41; 65; 0; 0; 32; 65; 102; 102; 70; 65]%nat
                    ltac:(simpl; lia)))).
    exists 0%nat. split; [right; now left | discriminate].
Defined.

(** ** Device selection *)

Lemma filter_video (all : list Devices.MediaDeviceInfo) :
  Forall (fun d => Devices.kind d = "videoinput"%string)
         (filter Devices.isVideoInput all).
Proof.
  apply Forall_forall. intros d Hin. apply filter_In in Hin.
  destruct Hin as [_ Hk]. now apply String.eqb_eq in Hk.
Qed.

(** [getDevicesWithPermission] reports no error exactly when access is
    granted and the enumeration holds a video input; then the selected
    device is the first video input and is in the device list, which is
    the video inputs in their order.  When access or the enumeration
    fails, nothing changes and the access message is reported; when no
    video input is found, the list is emptied, the selection stays what
    it was and the no-device message is reported. *)
Theorem device_selection (c : Devices.t) (granted : bool)
  (enumerated : option (list Devices.MediaDeviceInfo)) :
  let r := Devices.getDevicesWithPermission c granted enumerated in
  (snd r = [] <->
   granted = true /\
   exists all d, enumerated = Some all /\ In d all /\
                 Devices.kind d = "videoinput"%string) /\
  (snd r = [] ->
   In (Devices.selectedDeviceId (fst r))
      (map Devices.deviceId (Devices.devices (fst r))) /\
   Devices.selectedDeviceId (fst r)
   = hd ""%string (map Devices.deviceId (Devices.devices (fst r)))) /\
  (forall all, granted = true -> enumerated = Some all ->
     Devices.devices (fst r) = filter Devices.isVideoInput all /\
     Forall (fun d => Devices.kind d = "videoinput"%string)
            (Devices.devices (fst r)) /\
     (filter Devices.isVideoInput all = [] ->
      Devices.selectedDeviceId (fst r) = Devices.selectedDeviceId c /\
      snd r = [Devices.msgNoDevice])) /\
  (granted = false \/ enumerated = None ->
   r = (c, [Devices.msgNoAccess])).
Proof.
  cbv zeta. unfold Devices.getDevicesWithPermission.
  destruct granted.
  2:{ cbn. split; [|split; [|split]].
      - split; [discriminate|]. intros (Hg & _). discriminate Hg.
      - discriminate.
      - intros all Hg. discriminate Hg.
      - reflexivity. }
  destruct enumerated as [all|].
  2:{ cbn. split; [|split; [|split]].
      - split; [discriminate|]. intros (_ & all & d & He & _). discriminate He.
      - discriminate.
      - intros all _ He. discriminate He.
      - reflexivity. }
  pose proof (filter_video all) as Hvid.
  destruct (filter Devices.isVideoInput all) as [|d rest] eqn:Ef; cbn.
  - split; [|split; [|split]].
    + split; [discriminate|].
      intros (_ & all' & d & He & Hin & Hk). exfalso.
      injection He as <-.
      assert (Hd : In d (filter Devices.isVideoInput all)).
      { apply filter_In. split; [exact Hin|]. now apply String.eqb_eq. }
      rewrite Ef in Hd. destruct Hd.
    + discriminate.
    + intros all' _ He. injection He as <-. rewrite Ef.
      split; [reflexivity|]. split; [constructor|]. intros _. now split.
    + intros [Hg | He]; discriminate.
  - split; [|split; [|split]].
    + split; [intros _ | reflexivity].
      split; [reflexivity|]. exists all, d. split; [reflexivity|].
      assert (Hd : In d (filter Devices.isVideoInput all))
        by (rewrite Ef; now left).
      apply filter_In in Hd. destruct Hd as [Hin Hk].
      split; [exact Hin | now apply String.eqb_eq].
    + intros _. split; [now left | reflexivity].
    + intros all' _ He. injection He as <-. rewrite Ef.
      split; [reflexivity|]. split; [exact Hvid|]. discriminate.
    + intros [Hg | He]; discriminate.
Qed.

(** ** The grid of a session *)

Lemma draw_keeps_pattern (c : Camera.t) (f : Frame) :
  let c' := fst (Camera.draw c f) in
  Camera.colNum c' = Camera.colNum c /\ Camera.rowNum c' = Camera.rowNum c /\
  Camera.squareSize c' = Camera.squareSize c /\ Camera.objp c' = Camera.objp c.
Proof.
  cbv zeta. destruct (Camera.accepted c f) eqn:E.
  - destruct (draw_accepted c f E) as (d & _ & ->). now repeat split.
  - rewrite (draw_refused c f E). now repeat split.
Qed.

(** In src/models/camera.ts the stored grid always is the grid of the
    current pattern, with rows * columns points: after construction and
    after any pattern changes and calls of [draw]; and every object-point
    set that a call of [draw] appends is that grid. *)
Theorem grid_follows_pattern (c : Camera.t) (f : Frame)
  (Hc : Camera.reachable c) :
  Camera.objp c
  = prepareObjectPoints (Camera.colNum c) (Camera.rowNum c)
      (Camera.squareSize c) /\
  length (Camera.objp c) = (Camera.rowNum c * Camera.colNum c)%nat /\
  forall c0 : Camera.t,
    Camera.objectPoints (fst (Camera.draw c0 f)) = Camera.objectPoints c0 \/
    Camera.objectPoints (fst (Camera.draw c0 f))
    = Camera.objectPoints c0 ++ [Camera.objp c0].
Proof.
  assert (Hgrid : Camera.objp c
                  = prepareObjectPoints (Camera.colNum c) (Camera.rowNum c)
                      (Camera.squareSize c)).
  { induction Hc as [|c a _ IH]; [reflexivity|].
    destruct a as [config | f0]; simpl; [reflexivity|].
    destruct (draw_keeps_pattern c f0) as (-> & -> & -> & ->). exact IH. }
  split; [exact Hgrid|]. split.
  - rewrite Hgrid. apply objRows_length.
  - intro c0. destruct (Camera.accepted c0 f) eqn:E.
    + right. destruct (draw_accepted c0 f E) as (d & _ & ->). reflexivity.
    + left. now rewrite (draw_refused c0 f E).
Qed.

Lemma grid_follows_pattern_witness :
  length (Camera.objp
            (Camera.step Camera.constructor
               (Camera.SetBlockConfig
                  (Camera.mkBlockConfig (Some 9%nat) (Some 6%nat) 25))))
  = (6 * 9)%nat.
Proof.
  exact (proj1 (proj2
    (grid_follows_pattern _ (Scenario.frameOf (mkPoint 0 0 0 1))
       (Camera.reach_step _ _ Camera.reach_constructor)))).
Defined.
